(** * The image upload service of [app.py]

    A shallow embedding of the request handlers of [app.py] ([upload],
    [gallery], [health]) and of the two helpers they call
    ([_is_image_upload], [_timestamped_name]), together with the library
    function [werkzeug.utils.secure_filename] that [_timestamped_name]
    delegates to, the module-level start-up code, and the properties of
    the handlers.

    Python strings are sequences of Unicode code points; the blob container
    is an external service, modelled by its observable behaviour (a keyed
    collection of blobs, whose calls may raise). Reading [request.files]
    parses the body and may raise as well; the handler does it inside its
    [try]. *)

From Stdlib Require Import Ascii String.
From Stdlib Require Import List NArith Bool Lia.
From Stdlib Require Import Permutation Sorted Orders Mergesort.
From Stdlib Require Import RelationClasses.
Import ListNotations.

Local Open Scope N_scope.
Local Open Scope list_scope.

(** ** Python [str] *)

(** A code point. *)
Definition char := N.

(** A Python [str]: a sequence of code points. *)
Definition str := list char.

(** A string literal of the source (ASCII only). *)
Definition lit (s : string) : str := map N_of_ascii (list_ascii_of_string s).

Definition char_in (lo hi c : char) : bool := (lo <=? c) && (c <=? hi).

Definition is_ascii (c : char) : bool := c <? 128.

(** [a == b] on [str]. *)
Fixpoint str_eqb (a b : str) : bool :=
  match a, b with
  | [], [] => true
  | x :: a', y :: b' => (x =? y) && str_eqb a' b'
  | _, _ => false
  end.

(** [s.startswith(prefix)]. *)
Fixpoint startswith (s prefix : str) : bool :=
  match prefix, s with
  | [], _ => true
  | p :: prefix', c :: s' => (c =? p) && startswith s' prefix'
  | _ :: _, [] => false
  end.

(** Comparison of [str] values: lexicographic on code points, a proper
    prefix being smaller. *)
Fixpoint str_compare (a b : str) : comparison :=
  match a, b with
  | [], [] => Eq
  | [], _ :: _ => Lt
  | _ :: _, [] => Gt
  | x :: a', y :: b' =>
      match x ?= y with
      | Eq => str_compare a' b'
      | c => c
      end
  end.

(** [a <= b] on [str]. *)
Definition str_leb (a b : str) : bool :=
  match str_compare a b with
  | Gt => false
  | _ => true
  end.

(** [sep.join(parts)]. *)
Fixpoint join (sep : str) (parts : list str) : str :=
  match parts with
  | [] => []
  | [p] => p
  | p :: rest => p ++ sep ++ join sep rest
  end.

(** [s.replace(old, new)] for one-character [old] and [new]. *)
Definition replace_char (old new : char) (s : str) : str :=
  map (fun c => if c =? old then new else c) s.

(** [c.isspace()]: the code points CPython treats as whitespace. *)
Definition isspace (c : char) : bool :=
  char_in 9 13 c || char_in 28 32 c || (c =? 133) || (c =? 160) ||
  (c =? 5760) || char_in 8192 8202 c || (c =? 8232) || (c =? 8233) ||
  (c =? 8239) || (c =? 8287) || (c =? 12288).

(** [s.split()] with no argument: the maximal runs of non-whitespace.
    [cur] is the run being read, most recent code point first. *)
Fixpoint split_ws_from (cur : str) (s : str) : list str :=
  match s with
  | [] => match cur with [] => [] | _ => [rev cur] end
  | c :: s' =>
      if isspace c then
        match cur with
        | [] => split_ws_from [] s'
        | _ => rev cur :: split_ws_from [] s'
        end
      else split_ws_from (c :: cur) s'
  end.

Definition split_ws (s : str) : list str := split_ws_from [] s.

(** [s.lstrip(chars)], [s.rstrip(chars)], [s.strip(chars)]. *)
Definition mem_char (c : char) (chars : str) : bool := existsb (N.eqb c) chars.

Fixpoint lstrip (chars : str) (s : str) : str :=
  match s with
  | [] => []
  | c :: s' => if mem_char c chars then lstrip chars s' else s
  end.

Definition rstrip (chars : str) (s : str) : str := rev (lstrip chars (rev s)).

Definition strip (chars : str) (s : str) : str := rstrip chars (lstrip chars s).

(** [s.split(sep)[0]] for a one-character [sep]: what precedes the first
    occurrence of [sep]. *)
Fixpoint split_first (sep : char) (s : str) : str :=
  match s with
  | [] => []
  | c :: s' => if c =? sep then [] else c :: split_first sep s'
  end.

(** ** Unicode data

    The character database of the interpreter is not part of the program.
    On ASCII code points the three mappings below are written out (ASCII is
    stable under NFKD, and its case mapping is the usual one); on the other
    code points they are read from a table the development is parameterised
    by. *)

Record unicodedata := {
  (** full compatibility decomposition of a non-ASCII code point *)
  decomposition : char -> str;
  (** lowercase mapping of a non-ASCII code point *)
  lowercase : char -> str;
  (** uppercase mapping of a non-ASCII code point *)
  uppercase : char -> str
}.

(** The table in which every code point is its own decomposition and its
    own case mapping. On ASCII input no table is read (see
    [secure_filename_ascii] below), so the functions can be evaluated on
    ASCII strings with this one. *)
Definition no_unicodedata : unicodedata :=
  {| decomposition := fun c => [c];
     lowercase := fun c => [c];
     uppercase := fun c => [c] |}.

Definition ascii_lower (c : char) : char :=
  if char_in 65 90 c then c + 32 else c.

Definition ascii_upper (c : char) : char :=
  if char_in 97 122 c then c - 32 else c.

(** The platform the interpreter runs on ([os.name], [os.sep],
    [os.path.altsep]). *)
Inductive os_name := posix | nt.

Definition os_sep (o : os_name) : char :=
  match o with posix => 47 | nt => 92 end.

Definition os_path_altsep (o : os_name) : option char :=
  match o with posix => None | nt => Some 47 end.

(** ** [werkzeug.utils.secure_filename]

    The library function [_timestamped_name] calls, step by step as the
    library defines it: NFKD normalization, ASCII encoding that ignores
    what it cannot encode, path separators turned into spaces, the
    whitespace-separated words joined by underscores, every character
    outside [A-Za-z0-9_.-] deleted, dots and underscores stripped at both
    ends, and on Windows an underscore put before a device name. *)

(** The characters the pattern [[^A-Za-z0-9_.-]] does not match. *)
Definition filename_ascii_char (c : char) : bool :=
  char_in 65 90 c || char_in 97 122 c || char_in 48 57 c ||
  (c =? 95) || (c =? 46) || (c =? 45).

(** [_filename_ascii_strip_re.sub] with the empty replacement: every match
    of the pattern is deleted. *)
Definition filename_ascii_strip (s : str) : str := filter filename_ascii_char s.

(** [_windows_device_files] (read on Windows only). *)
Definition windows_device_files : list str :=
  map lit ["CON"; "PRN"; "AUX"; "NUL"]%string ++
  map (fun i => lit "COM" ++ [48 + i]) [0; 1; 2; 3; 4; 5; 6; 7; 8; 9] ++
  map (fun i => lit "LPT" ++ [48 + i]) [0; 1; 2; 3; 4; 5; 6; 7; 8; 9].

Section Platform.

Variable U : unicodedata.
Variable os : os_name.

(** [s.lower()] and [s.upper()]: code point by code point. *)
Definition lower (s : str) : str :=
  flat_map (fun c => if is_ascii c then [ascii_lower c] else lowercase U c) s.

Definition upper (s : str) : str :=
  flat_map (fun c => if is_ascii c then [ascii_upper c] else uppercase U c) s.

(** [unicodedata.normalize("NFKD", s)], up to the canonical reordering of
    combining marks: those are not ASCII, and the only use of the result
    is [encode_ascii_ignore], which drops them. *)
Definition normalize_NFKD (s : str) : str :=
  flat_map (fun c => if is_ascii c then [c] else decomposition U c) s.

(** [s.encode("ascii", "ignore").decode("ascii")]. *)
Definition encode_ascii_ignore (s : str) : str := filter is_ascii s.

(** The loop [for sep in os.sep, os.path.altsep: if sep: ...]. *)
Definition replace_separators (s : str) : str :=
  fold_left
    (fun filename sep =>
       match sep with
       | Some c => replace_char c 32 filename
       | None => filename
       end)
    [Some (os_sep os); os_path_altsep os] s.

Definition secure_filename (filename : str) : str :=
  let filename := normalize_NFKD filename in
  let filename := encode_ascii_ignore filename in
  let filename := replace_separators filename in
  let filename :=
    strip (lit "._") (filename_ascii_strip (join (lit "_") (split_ws filename))) in
  match os with
  | nt =>
      match filename with
      | [] => filename
      | _ :: _ =>
          if existsb (str_eqb (upper (split_first 46 filename)))
               windows_device_files
          then lit "_" ++ filename
          else filename
      end
  | posix => filename
  end.

End Platform.

(** ** The clock *)

(** A [datetime] in UTC, as [datetime.now(timezone.utc)] returns it. *)
Record datetime := {
  year : N;
  month : N;
  day : N;
  hour : N;
  minute : N;
  second : N;
  microsecond : N
}.

(** The ranges of the fields of a [datetime] ([MINYEAR] is 1 and [MAXYEAR]
    is 9999). *)
Definition valid_datetime (d : datetime) : bool :=
  char_in 1 9999 (year d) && char_in 1 12 (month d) && char_in 1 31 (day d) &&
  (hour d <? 24) && (minute d <? 60) && (second d <? 60) &&
  (microsecond d <? 1000000).

Fixpoint uint_digits (d : Decimal.uint) : str :=
  match d with
  | Decimal.Nil => []
  | Decimal.D0 d' => 48 :: uint_digits d'
  | Decimal.D1 d' => 49 :: uint_digits d'
  | Decimal.D2 d' => 50 :: uint_digits d'
  | Decimal.D3 d' => 51 :: uint_digits d'
  | Decimal.D4 d' => 52 :: uint_digits d'
  | Decimal.D5 d' => 53 :: uint_digits d'
  | Decimal.D6 d' => 54 :: uint_digits d'
  | Decimal.D7 d' => 55 :: uint_digits d'
  | Decimal.D8 d' => 56 :: uint_digits d'
  | Decimal.D9 d' => 57 :: uint_digits d'
  end.

(** The decimal numeral of [n]. *)
Definition decimal (n : N) : str := uint_digits (N.to_uint n).

(** [s.zfill(width)] on a numeral. *)
Definition zfill (width : nat) (s : str) : str :=
  repeat 48 (width - length s)%nat ++ s.

(** [d.strftime("%Y%m%dT%H%M%S")]: the year on four digits, the other
    fields on two, zero-padded (the documented format; platforms differ on
    the padding of years before 1000 only, which the clock does not
    show). *)
Definition strftime (d : datetime) : str :=
  zfill 4 (decimal (year d)) ++ zfill 2 (decimal (month d)) ++
  zfill 2 (decimal (day d)) ++ lit "T" ++
  zfill 2 (decimal (hour d)) ++ zfill 2 (decimal (minute d)) ++
  zfill 2 (decimal (second d)).

(** Two instants within the same second. *)
Definition same_second (a b : datetime) : Prop :=
  year a = year b /\ month a = month b /\ day a = day b /\
  hour a = hour b /\ minute a = minute b /\ second a = second b.

(** ** Requests and responses *)

Definition bytes := list N.

(** A [werkzeug.datastructures.FileStorage]: one file part of a multipart
    body. *)
Record FileStorage := {
  filename : option str;
  mimetype : option str;
  stream : bytes
}.

(** An exception; [str_exc] is [str(exc)]. *)
Record exn := { exn_class : str; exn_message : str }.

Definition str_exc (e : exn) : str := exn_message e.

(** What a call gives: a value, or an exception. *)
Inductive outcome (A : Type) :=
| Returned (a : A)
| Raised (e : exn).

Arguments Returned {A} a.
Arguments Raised {A} e.

(** [app.config["MAX_CONTENT_LENGTH"]]. *)
Definition MAX_CONTENT_LENGTH : N := 10 * 1024 * 1024.

(** An upload request as it reaches the handler, before anything is read:
    the length the body declares (when it declares one), the file parts of
    the multipart body by field name, and what else the parser of the
    framework raises on this body, if anything (more parts than it accepts,
    a client that went away). *)
Record request := {
  content_length : option N;
  parts : list (str * FileStorage);
  parse_fault : option exn
}.

(** The exception of the framework for a body over the limit, with the
    string [str] gives for it. *)
Definition RequestEntityTooLarge : exn :=
  {| exn_class := lit "RequestEntityTooLarge";
     exn_message :=
       lit "413 Request Entity Too Large: The data value transmitted exceeds the capacity limit." |}.

(** Reading [request.files]: the body is parsed at that moment. A declared
    length over [MAX_CONTENT_LENGTH] raises, so does a fault of the parser;
    otherwise the file parts are returned. *)
Definition request_files (req : request) : outcome (list (str * FileStorage)) :=
  match content_length req with
  | Some n =>
      if MAX_CONTENT_LENGTH <? n then Raised RequestEntityTooLarge
      else
        match parse_fault req with
        | Some e => Raised e
        | None => Returned (parts req)
        end
  | None =>
      match parse_fault req with
      | Some e => Raised e
      | None => Returned (parts req)
      end
  end.

(** The file parts the handler gets from [request.files]: those of the body
    when the read returns, none when it raises. A part found in [files req]
    is therefore a part of a request that was read without error. *)
Definition files (req : request) : list (str * FileStorage) :=
  match request_files req with
  | Returned fs => fs
  | Raised _ => []
  end.

(** [name in fs] and [fs[name]] on the parts read: a lookup returns the
    first part of that name. *)
Fixpoint files_get (name : str) (fs : list (str * FileStorage)) : option FileStorage :=
  match fs with
  | [] => None
  | (k, f) :: fs' => if str_eqb k name then Some f else files_get name fs'
  end.

(** The bodies [jsonify] is called with. *)
Inductive json :=
| json_ok                             (* jsonify(ok=True) *)
| json_ok_url (url : str)             (* jsonify(ok=True, url=...) *)
| json_ok_gallery (gallery : list str) (* jsonify(ok=True, gallery=...) *)
| json_error (error : str).           (* jsonify(ok=False, error=...) *)

Definition ok (j : json) : bool :=
  match j with
  | json_error _ => false
  | _ => true
  end.

(** A response: the body and the status code (200 when the handler returns
    the body alone). *)
Definition response := (json * N)%type.

(** ** The blob container and the effects of a handler *)

(** A stored blob, as the listing returns it. *)
Record BlobProperties := {
  name : str;
  content : bytes;
  content_type : option str
}.

(** The container behind [container_client]. *)
Record container := {
  url : str;
  blobs : list BlobProperties
}.

(** What a handler does to the outside: calls of the container client and
    log records. *)
Inductive event :=
| call_upload_blob (blob_name : str) (data : bytes) (overwrite : bool)
    (ctype : option str)
| call_list_blobs
| log_info (msg : str)
| log_exception (msg : str) (exc : exn).

Record world := {
  store : container;
  trace : list event
}.

(** What the environment decides during one request: the instant the clock
    shows, whether the upload call raises, and whether the listing raises
    (and after how many blobs). *)
Record env := {
  now_utc : datetime;
  upload_fault : option exn;
  list_fault : option (nat * exn)
}.

(** A computation that may change the world and may raise. *)
Definition M (A : Type) := world -> outcome A * world.

Definition ret {A} (a : A) : M A := fun w => (Returned a, w).

Definition raise {A} (e : exn) : M A := fun w => (Raised e, w).

Definition bind {A B} (m : M A) (k : A -> M B) : M B :=
  fun w =>
    match m w with
    | (Returned a, w') => k a w'
    | (Raised e, w') => (Raised e, w')
    end.

(** [try: m except Exception as exc: handler exc]. *)
Definition try_except {A} (m : M A) (handler : exn -> M A) : M A :=
  fun w =>
    match m w with
    | (Returned a, w') => (Returned a, w')
    | (Raised e, w') => handler e w'
    end.

Notation "x <- m ;; k" := (bind m (fun x => k))
  (at level 61, m at next level, right associativity).
Notation "m ;;; k" := (bind m (fun _ => k))
  (at level 61, right associativity).

Definition emit (e : event) : M unit :=
  fun w => (Returned tt, {| store := store w; trace := trace w ++ [e] |}).

(** [container_client.url]. *)
Definition container_url : M str := fun w => (Returned (url (store w)), w).

Definition has_blob (n : str) (bs : list BlobProperties) : bool :=
  existsb (fun b => str_eqb (name b) n) bs.

(** Storing a blob under a name: an existing blob of that name is replaced,
    a new one is added. *)
Fixpoint put_blob (b : BlobProperties) (bs : list BlobProperties) : list BlobProperties :=
  match bs with
  | [] => [b]
  | b' :: bs' => if str_eqb (name b') (name b) then b :: bs' else b' :: put_blob b bs'
  end.

Definition ResourceExistsError : exn :=
  {| exn_class := lit "ResourceExistsError";
     exn_message := lit "The specified blob already exists." |}.

(** [container_client.upload_blob(name=, data=, overwrite=, content_settings=)].
    A call that raises leaves the container as it was. *)
Definition upload_blob (E : env) (blob_name : str) (data : bytes)
    (overwrite : bool) (ctype : option str) : M unit :=
  emit (call_upload_blob blob_name data overwrite ctype) ;;;
  fun w =>
    match upload_fault E with
    | Some e => (Raised e, w)
    | None =>
        if negb overwrite && has_blob blob_name (blobs (store w))
        then (Raised ResourceExistsError, w)
        else
          let b := {| name := blob_name; content := data; content_type := ctype |} in
          (Returned tt,
           {| store := {| url := url (store w); blobs := put_blob b (blobs (store w)) |};
              trace := trace w |})
    end.

(** The iterator [container_client.list_blobs()] returns: the blobs it
    yields, and the exception that ends the iteration early, if any. *)
Definition blob_iterator := (list BlobProperties * option exn)%type.

Definition list_blobs (E : env) : M blob_iterator :=
  emit call_list_blobs ;;;
  fun w =>
    match list_fault E with
    | None => (Returned (blobs (store w), None), w)
    | Some (n, e) => (Returned (firstn n (blobs (store w)), Some e), w)
    end.

Definition logger_info (msg : str) : M unit := emit (log_info msg).

(** The access to [request.files] in a handler: it returns the parts or
    raises, and touches neither the container nor the log. *)
Definition read_files (req : request) : M (list (str * FileStorage)) :=
  fun w => (request_files req, w).

Definition logger_exception (msg : str) (exc : exn) : M unit :=
  emit (log_exception msg exc).

(** ** Sorting *)

(** The order of [urls.sort(reverse=True)]: [a] may precede [b] when
    [b <= a]. *)
Module StrReverseOrder <: TotalLeBool.
Definition t := str.
Definition leb (a b : str) : bool := str_leb b a.
Lemma str_compare_antisym (a b : str) :
  str_compare b a = CompOpp (str_compare a b).
Proof.
  revert b; induction a as [|x a IH]; intros [|y b]; simpl; trivial.
  rewrite (N.compare_antisym x y).
  destruct (x ?= y); simpl; auto.
Qed.
Lemma leb_total (a b : str) : leb a b = true \/ leb b a = true.
Proof.
  unfold leb, str_leb. rewrite (str_compare_antisym a b).
  destruct (str_compare a b); simpl; auto.
Qed.
End StrReverseOrder.

Module StrReverseSort := Sort StrReverseOrder.

(** [urls.sort(reverse=True)]: a stable merge sort, as the sort of Python
    is; strings that compare equal are equal, so the result is the one
    descending arrangement of [urls]. *)
Definition sort_reverse (urls : list str) : list str := StrReverseSort.sort urls.

(** ** The handlers *)

Section Handlers.

Variable U : unicodedata.
Variable os : os_name.

(** [x or default]: the default replaces [None] and the empty string. *)
Definition or_str (x : option str) (default : str) : str :=
  match x with
  | None | Some [] => default
  | Some s => s
  end.

(** [_is_image_upload]: the declared content type, lowercased, starts with
    [image/]. *)
Definition _is_image_upload (file_storage : FileStorage) : bool :=
  let mimetype := lower U (or_str (mimetype file_storage) []) in
  startswith mimetype (lit "image/").

(** [_timestamped_name]; [now] is what [datetime.now(timezone.utc)]
    returns during the call. *)
Definition _timestamped_name (now : datetime) (original_filename : option str) : str :=
  let safe := secure_filename U os (or_str original_filename (lit "upload")) in
  let now_utc := strftime now in
  now_utc ++ lit "-" ++ safe.

(** The test of [upload] that [f.filename] is the empty string. *)
Definition filename_is_empty (f : FileStorage) : bool :=
  match filename f with
  | Some [] => true
  | _ => false
  end.

(** The handler of [POST /api/v1/upload]. Both uses of [request.files] are
    inside the [try], so what the read raises is answered by the [except]
    clause. *)
Definition upload (E : env) (req : request) : M response :=
  try_except
    (request_files <- read_files req ;;
     match files_get (lit "file") request_files with
     | None => ret (json_error (lit "Missing file"), 400)
     | Some f =>
         if filename_is_empty f then
           ret (json_error (lit "Empty filename"), 400)
         else if negb (_is_image_upload f) then
           ret (json_error (lit "Only image/* content types are allowed"), 400)
         else
           let blob_name := _timestamped_name (now_utc E) (filename f) in
           upload_blob E blob_name (stream f) true (mimetype f) ;;;
           base <- container_url ;;
           let blob_url := base ++ lit "/" ++ blob_name in
           logger_info (lit "Uploaded " ++ blob_url) ;;;
           ret (json_ok_url blob_url, 200)
     end)
    (fun exc =>
       logger_exception (lit "Upload failed") exc ;;;
       ret (json_error (str_exc exc), 500)).

(** The loop [for b in blobs: urls.append(...)] over the iterator. *)
Fixpoint gallery_loop (base : str) (yielded : list BlobProperties)
    (stop : option exn) (urls : list str) : M (list str) :=
  match yielded with
  | [] =>
      match stop with
      | Some e => raise e
      | None => ret urls
      end
  | b :: rest => gallery_loop base rest stop (urls ++ [base ++ lit "/" ++ name b])
  end.

(** The handler of [GET /api/v1/gallery]. *)
Definition gallery (E : env) : M response :=
  try_except
    (blobs <- list_blobs E ;;
     base <- container_url ;;
     urls <- gallery_loop base (fst blobs) (snd blobs) [] ;;
     let urls := sort_reverse urls in
     ret (json_ok_gallery urls, 200))
    (fun exc =>
       logger_exception (lit "Gallery fetch failed") exc ;;;
       ret (json_error (str_exc exc), 500)).

(** The handler of [GET /api/v1/health]. *)
Definition health : M response := ret (json_ok, 200).

End Handlers.

(** ** Vocabulary of the properties *)

(** ASCII letters, digits and the hyphen: the code points that
    [secure_filename] keeps wherever they stand. *)
Definition kept_char (c : char) : bool :=
  char_in 65 90 c || char_in 97 122 c || char_in 48 57 c || (c =? 45).

Definition is_digit (c : char) : bool := char_in 48 57 c.

(** A numeral of exactly [w] decimal digits. *)
Definition digits_of_width (w : nat) (s : str) : bool :=
  Nat.eqb (length s) w && forallb is_digit s.

(** The pattern [YYYYMMDDTHHMMSS]: fifteen code points, a [T] at index 8
    and decimal digits elsewhere. *)
Definition is_timestamp (s : str) : bool :=
  Nat.eqb (length s) 15 && forallb is_digit (firstn 8 s) &&
  (nth 8 s 0 =? 84) && forallb is_digit (skipn 9 s).

(** The blob stored under a name. *)
Definition get_blob (n : str) (bs : list BlobProperties) : option BlobProperties :=
  find (fun b => str_eqb (name b) n) bs.

(** [a] may stand before [b] in the gallery: [b <= a]. *)
Definition precedes (a b : str) : Prop := str_leb b a = true.

(** ** Sample data

    An instant, a container with the two blobs of the gallery example, and
    requests with one part named [file]. All of it is ASCII, so the table
    [no_unicodedata] is never read when the handlers run on it. *)

Module Sample.

Definition now : datetime :=
  {| year := 2024; month := 6; day := 1; hour := 0; minute := 5; second := 9;
     microsecond := 17 |}.

Definition later : datetime :=
  {| year := 2024; month := 6; day := 1; hour := 0; minute := 5; second := 9;
     microsecond := 900000 |}.

Definition base_url : str :=
  lit "https://acct.blob.core.windows.net/lanternfly-images".

Definition w0 : world :=
  {| store :=
       {| url := base_url;
          blobs :=
            [ {| name := lit "20240101T000000-a.png"; content := [137; 80];
                 content_type := Some (lit "image/png") |};
              {| name := lit "20240601T000000-b.png"; content := [137; 78];
                 content_type := Some (lit "image/png") |} ] |};
     trace := [] |}.

Definition healthy : env :=
  {| now_utc := now; upload_fault := None; list_fault := None |}.

Definition healthy_later : env :=
  {| now_utc := later; upload_fault := None; list_fault := None |}.

Definition AuthorizationFailure : exn :=
  {| exn_class := lit "HttpResponseError";
     exn_message := lit "This request is not authorized to perform this operation." |}.

Definition failing : env :=
  {| now_utc := now;
     upload_fault := Some AuthorizationFailure;
     list_fault := Some (1%nat, AuthorizationFailure) |}.

Definition part (fn mt : option str) (data : bytes) : FileStorage :=
  {| filename := fn; mimetype := mt; stream := data |}.

Definition request_with (f : FileStorage) : request :=
  {| content_length := Some 4096; parts := [(lit "file", f)]; parse_fault := None |}.

(** The same body declared at 20 MiB, over the limit. *)
Definition oversized (f : FileStorage) : request :=
  {| content_length := Some (20 * 1024 * 1024);
     parts := [(lit "file", f)];
     parse_fault := None |}.

(** A body with no part named [file], within the limit and over it. *)
Definition no_file : request :=
  {| content_length := Some 300; parts := []; parse_fault := None |}.

Definition oversized_no_file : request :=
  {| content_length := Some (20 * 1024 * 1024); parts := []; parse_fault := None |}.

Definition photo : FileStorage :=
  part (Some (lit "../my photo.PNG")) (Some (lit "image/png")) [137; 80; 78; 71].

Definition photo_again : FileStorage :=
  part (Some (lit "../my photo.PNG")) (Some (lit "image/jpeg")) [255; 216].

Definition text_note : FileStorage :=
  part (Some (lit "note.txt")) (Some (lit "text/plain")) [104; 105].

Definition untyped : FileStorage :=
  part (Some (lit "a.png")) None [137; 80].

Definition untyped_unnamed : FileStorage :=
  part (Some []) None [].

Definition nothing_selected : FileStorage :=
  part (Some []) (Some (lit "application/octet-stream")) [].

Definition question_marks : FileStorage :=
  part (Some (lit "???")) (Some (lit "image/png")) [137; 80].

End Sample.

(** ** Start-up

    The module-level code of [app.py]: the three configuration variables
    read from the process environment, the choice of the blob service
    client, and the container client. The two constructors of
    [BlobServiceClient] belong to the SDK: whether one raises on its
    argument (a malformed connection string, an invalid URL) is a parameter
    of the development. *)

(** [os.environ]: the variables that are set, with their values. *)
Definition environ := list (str * str).

(** [os.getenv(key)]: the value of a variable that is set. *)
Fixpoint getenv (e : environ) (key : str) : option str :=
  match e with
  | [] => None
  | (k, v) :: e' => if str_eqb k key then Some v else getenv e' key
  end.

(** [os.getenv(key, default)]. *)
Definition getenv_default (e : environ) (key default : str) : str :=
  match getenv e key with
  | Some v => v
  | None => default
  end.

(** The truth value of a string or [None] in a condition [if x:]. *)
Definition truthy (x : option str) : bool :=
  match x with
  | None | Some [] => false
  | Some (_ :: _) => true
  end.

(** A blob service client, by the call that builds it. *)
Inductive BlobServiceClient :=
| from_connection_string (conn_str : str)
| with_account_url (account_url : str).

(** A container client: its service client and the name of its container. *)
Record ContainerClient := {
  service : BlobServiceClient;
  container_name : str
}.

Definition RuntimeError (msg : str) : exn :=
  {| exn_class := lit "RuntimeError"; exn_message := msg |}.

Definition ValueError (msg : str) : exn :=
  {| exn_class := lit "ValueError"; exn_message := msg |}.

(** The SDK: the exception a constructor of [BlobServiceClient] raises on
    its argument, if it raises. *)
Record azure_sdk := {
  constructor_raises : BlobServiceClient -> option exn
}.

(** A call of one of the two constructors. *)
Definition construct (sdk : azure_sdk) (client : BlobServiceClient)
    : outcome BlobServiceClient :=
  match constructor_raises sdk client with
  | Some e => Raised e
  | None => Returned client
  end.

(** [blob_service_client.get_container_client(container)]: the container
    client of the SDK refuses an empty container name. *)
Definition get_container_client (blob_service_client : BlobServiceClient)
    (container : str) : outcome ContainerClient :=
  match container with
  | [] => Raised (ValueError (lit "Please specify a container name."))
  | _ :: _ =>
      Returned {| service := blob_service_client; container_name := container |}
  end.

(** The module-level statements, from the three [os.getenv] calls to
    [container_client]. *)
Definition startup (sdk : azure_sdk) (e : environ) : outcome ContainerClient :=
  let STORAGE_ACCOUNT_URL := getenv e (lit "STORAGE_ACCOUNT_URL") in
  let IMAGES_CONTAINER :=
    getenv_default e (lit "IMAGES_CONTAINER") (lit "lanternfly-images") in
  let AZURE_STORAGE_CONNECTION_STRING :=
    getenv e (lit "AZURE_STORAGE_CONNECTION_STRING") in
  let built :=
    match AZURE_STORAGE_CONNECTION_STRING with
    | Some (c :: conn_str) => construct sdk (from_connection_string (c :: conn_str))
    | _ =>
        match STORAGE_ACCOUNT_URL with
        | Some (c :: account_url) =>
            construct sdk (with_account_url (c :: account_url))
        | _ =>
            Raised
              (RuntimeError
                 (lit "Missing storage configuration. Set AZURE_STORAGE_CONNECTION_STRING or STORAGE_ACCOUNT_URL."))
        end
    end in
  match built with
  | Raised exc => Raised exc
  | Returned blob_service_client =>
      get_container_client blob_service_client IMAGES_CONTAINER
  end.

(** ** Vocabulary of the further properties *)

(** The calls of the container client among the events of a handler. *)
Definition is_store_call (ev : event) : bool :=
  match ev with
  | call_upload_blob _ _ _ _ | call_list_blobs => true
  | log_info _ | log_exception _ _ => false
  end.

Definition then_compare (c k : comparison) : comparison :=
  match c with
  | Eq => k
  | _ => c
  end.

(** Chronological comparison of two instants, to the second. *)
Definition compare_seconds (a b : datetime) : comparison :=
  then_compare (year a ?= year b)
    (then_compare (month a ?= month b)
       (then_compare (day a ?= day b)
          (then_compare (hour a ?= hour b)
             (then_compare (minute a ?= minute b) (second a ?= second b))))).

(** The number a string of decimal digits denotes. *)
Fixpoint digits_value (s : str) : N :=
  match s with
  | [] => 0
  | c :: s' => (c - 48) * 10 ^ N.of_nat (length s') + digits_value s'
  end.

(** [P] holds of every number below [bound]. *)
Definition all_below (P : N -> bool) (bound : N) : bool :=
  fst (N.iter bound (fun bk => (fst bk && P (snd bk), N.succ (snd bk))) (true, 0)).

(** The numeral of [k], padded to [w] digits, has exactly [w] decimal digits
    and denotes [k]. *)
Definition numeral_ok (w : nat) (k : N) : bool :=
  digits_of_width w (zfill w (decimal k)) &&
  (digits_value (zfill w (decimal k)) =? k).

(** Sample environments of the process. *)
Module SampleEnviron.

Definition credentialed : environ :=
  [(lit "AZURE_STORAGE_CONNECTION_STRING", lit "UseDevelopmentStorage=true");
   (lit "STORAGE_ACCOUNT_URL", lit "https://acct.blob.core.windows.net")].

Definition anonymous : environ :=
  [(lit "AZURE_STORAGE_CONNECTION_STRING", []);
   (lit "STORAGE_ACCOUNT_URL", lit "https://acct.blob.core.windows.net");
   (lit "IMAGES_CONTAINER", lit "photos")].

Definition unconfigured : environ :=
  [(lit "STORAGE_ACCOUNT_URL", []); (lit "PATH", lit "/usr/bin")].

Definition unnamed_container : environ :=
  [(lit "AZURE_STORAGE_CONNECTION_STRING", lit "UseDevelopmentStorage=true");
   (lit "IMAGES_CONTAINER", [])].

(** An SDK whose constructors accept every argument. *)
Definition accepting : azure_sdk := {| constructor_raises := fun _ => None |}.

End SampleEnviron.

(** * Properties *)

(** ** Strings *)

Lemma str_eqb_eq (a b : str) : str_eqb a b = true <-> a = b.
Proof.
  revert b; induction a as [|x a IH]; intros [|y b]; simpl; split;
    try discriminate; try reflexivity; intro H.
  - apply andb_true_iff in H as [Hx Hab].
    apply N.eqb_eq in Hx. apply IH in Hab. now subst.
  - injection H as -> ->. apply andb_true_iff; split.
    + apply N.eqb_refl.
    + now apply IH.
Qed.

Lemma Forall_lstrip (P : char -> Prop) (chars s : str) :
  Forall P s -> Forall P (lstrip chars s).
Proof.
  induction 1 as [|c s Hc Hs IH]; simpl.
  - constructor.
  - destruct (mem_char c chars); [exact IH | now constructor].
Qed.

Lemma Forall_strip (P : char -> Prop) (chars s : str) :
  Forall P s -> Forall P (strip chars s).
Proof.
  intro H. unfold strip, rstrip.
  apply Forall_rev, Forall_lstrip, Forall_rev, Forall_lstrip, H.
Qed.

Lemma In_lstrip (c : char) (chars s : str) :
  mem_char c chars = false -> In c s -> In c (lstrip chars s).
Proof.
  intros Hc. induction s as [|x s IH]; simpl; [tauto|].
  intros [-> | Hin].
  - rewrite Hc. now left.
  - destruct (mem_char x chars); [auto | now right].
Qed.

Lemma In_strip (c : char) (chars s : str) :
  mem_char c chars = false -> In c s -> In c (strip chars s).
Proof.
  intros Hc Hin. unfold strip, rstrip.
  apply in_rev. rewrite rev_involutive.
  apply In_lstrip; [exact Hc|]. apply in_rev. rewrite rev_involutive.
  now apply In_lstrip.
Qed.

Lemma In_join (c : char) (sep : str) (parts : list str) :
  In c (concat parts) -> In c (join sep parts).
Proof.
  induction parts as [|p [|q rest] IH]; simpl; [tauto | | ].
  - now rewrite app_nil_r.
  - intro H. apply in_app_or in H as [H | H].
    + apply in_or_app. now left.
    + apply in_or_app. right. apply in_or_app. right. now apply IH.
Qed.

Lemma In_split_ws_from (c : char) (cur s : str) :
  isspace c = false ->
  In c cur \/ In c s ->
  In c (concat (split_ws_from cur s)).
Proof.
  intro Hc. revert cur. induction s as [|x s IH]; intros cur H; simpl.
  - destruct H as [H | []]. destruct cur as [|y cur]; [destruct H|].
    simpl. rewrite app_nil_r. apply in_or_app.
    simpl in H. destruct H as [-> | H]; [right; now left | left; now apply in_rev in H].
  - destruct (isspace x) eqn:Hx.
    + assert (Hs : In c cur \/ In c s).
      { destruct H as [H | [-> | H]]; auto. congruence. }
      destruct cur as [|y cur].
      * apply IH. destruct Hs as [[] | Hs]. now right.
      * simpl concat. apply in_or_app.
        destruct Hs as [Hs | Hs].
        -- left. now apply in_rev in Hs.
        -- right. apply IH. now right.
    + apply IH. destruct H as [H | [-> | H]].
      * left. now right.
      * left. now left.
      * now right.
Qed.

Lemma In_split_ws (c : char) (s : str) :
  isspace c = false -> In c s -> In c (join (lit "_") (split_ws s)).
Proof.
  intros Hc Hin. apply In_join, In_split_ws_from; auto.
Qed.

Ltac char_facts :=
  unfold kept_char, filename_ascii_char, isspace, is_ascii, mem_char, char_in in *;
  simpl in *;
  repeat match goal with
  | H : _ || _ = true |- _ => apply orb_true_iff in H; destruct H as [H | H]
  | H : _ && _ = true |- _ => apply andb_true_iff in H; destruct H
  | H : (_ <=? _) = true |- _ => apply N.leb_le in H
  | H : (_ <? _) = true |- _ => apply N.ltb_lt in H
  | H : (_ =? _) = true |- _ => apply N.eqb_eq in H
  end.

Lemma kept_char_facts (c : char) :
  kept_char c = true ->
  is_ascii c = true /\ isspace c = false /\ filename_ascii_char c = true /\
  mem_char c (lit "._") = false /\ c <> 47 /\ c <> 92 /\ c <> 32.
Proof.
  intro H.
  assert (Hr : 45 <= c <= 122) by (char_facts; lia).
  assert (Hn : c <> 46 /\ c <> 95 /\ c <> 47 /\ c <> 92) by (char_facts; lia).
  destruct Hn as (H46 & H95 & H47 & H92).
  repeat split; try lia.
  - apply N.ltb_lt. lia.
  - unfold isspace, char_in.
    repeat (apply orb_false_iff; split);
      try (apply andb_false_iff; (left; apply N.leb_gt; lia) || (right; apply N.leb_gt; lia));
      try (apply N.eqb_neq; lia).
  - unfold filename_ascii_char. unfold kept_char in H.
    apply orb_true_iff in H as [H | H].
    + rewrite H. reflexivity.
    + rewrite H. now rewrite !orb_true_r.
  - unfold mem_char. simpl.
    apply N.eqb_neq in H46, H95. rewrite H46, H95. reflexivity.
Qed.

Section SecureFilename.

Variable U : unicodedata.
Variable os : os_name.

Lemma secure_filename_chars (s : str) :
  Forall (fun c => filename_ascii_char c = true) (secure_filename U os s).
Proof.
  unfold secure_filename.
  set (t := strip _ _).
  assert (Ht : Forall (fun c => filename_ascii_char c = true) t).
  { apply Forall_strip. unfold filename_ascii_strip.
    apply Forall_forall. intros c Hc. now apply filter_In in Hc. }
  destruct os; [exact Ht|].
  destruct t as [|c t']; [constructor|].
  destruct (existsb _ _); [|exact Ht].
  constructor; [reflexivity | exact Ht].
Qed.

Lemma In_replace_separators (c : char) (s : str) :
  c <> 47 -> c <> 92 -> In c s -> In c (replace_separators os s).
Proof.
  intros H47 H92 Hin.
  assert (Hmap : forall old l, c <> old -> In c l -> In c (replace_char old 32 l)).
  { intros old l Hne Hl. unfold replace_char.
    apply in_map_iff. exists c. split; [|exact Hl].
    apply N.eqb_neq in Hne. now rewrite Hne. }
  unfold replace_separators. destruct os; simpl; auto.
Qed.

Lemma secure_filename_keeps (c : char) (s : str) :
  kept_char c = true -> In c s -> In c (secure_filename U os s).
Proof.
  intros Hk Hin.
  destruct (kept_char_facts c Hk) as (Ha & Hsp & Hf & Hst & H47 & H92 & _).
  unfold secure_filename.
  set (t := strip _ _).
  assert (Ht : In c t).
  { apply In_strip; [exact Hst|].
    apply filter_In. split; [|exact Hf].
    apply In_split_ws; [exact Hsp|].
    apply In_replace_separators; auto.
    apply filter_In. split; [|exact Ha].
    apply in_flat_map. exists c. split; [exact Hin|].
    rewrite Ha. now left. }
  destruct os; [exact Ht|].
  destruct t as [|x t']; [exact Ht|].
  destruct (existsb _ _); [now right | exact Ht].
Qed.

Lemma secure_filename_upload :
  secure_filename U os (lit "upload") = lit "upload".
Proof. destruct os; reflexivity. Qed.

End SecureFilename.

(** ** The timestamp *)

Lemma all_below_spec (P : N -> bool) (bound : N) :
  all_below P bound = true -> forall n, n < bound -> P n = true.
Proof.
  unfold all_below.
  set (step := fun bk : bool * N => (fst bk && P (snd bk), N.succ (snd bk))).
  assert (Hinv : forall b,
            snd (N.iter b step (true, 0)) = b /\
            (fst (N.iter b step (true, 0)) = true ->
             forall n, n < b -> P n = true)).
  { induction b as [|b [IHs IHp]] using N.peano_ind.
    - simpl. split; [reflexivity|]. intros _ n Hn. lia.
    - rewrite N.iter_succ. unfold step at 1. cbn [fst snd]. rewrite IHs.
      split; [reflexivity|].
      intros H n Hn. apply andb_true_iff in H as [Hb Hp].
      rewrite IHs in Hp.
      destruct (N.eq_dec n b) as [-> | Hne]; [exact Hp|].
      apply IHp; [exact Hb | lia]. }
  intro H. exact (proj2 (Hinv bound) H).
Qed.

(** The numerals of the fields: checked for every value a field can take. *)
Lemma two_digit_numerals : all_below (numeral_ok 2) 100 = true.
Proof. vm_compute. reflexivity. Qed.

Lemma four_digit_numerals : all_below (numeral_ok 4) 10000 = true.
Proof. vm_compute. reflexivity. Qed.

Lemma numeral_below (w : nat) (bound n : N) :
  all_below (numeral_ok w) bound = true -> n < bound ->
  digits_of_width w (zfill w (decimal n)) = true /\
  digits_value (zfill w (decimal n)) = n.
Proof.
  intros Hall Hn.
  pose proof (all_below_spec _ _ Hall n Hn) as H.
  unfold numeral_ok in H. apply andb_true_iff in H as [Hw Hv].
  split; [exact Hw | now apply N.eqb_eq].
Qed.

Lemma two_digits (n : N) :
  n < 100 -> digits_of_width 2 (zfill 2 (decimal n)) = true.
Proof. intro H. exact (proj1 (numeral_below 2 100 n two_digit_numerals H)). Qed.

Lemma four_digits (n : N) :
  n < 10000 -> digits_of_width 4 (zfill 4 (decimal n)) = true.
Proof. intro H. exact (proj1 (numeral_below 4 10000 n four_digit_numerals H)). Qed.



Lemma valid_datetime_bounds (d : datetime) :
  valid_datetime d = true ->
  year d < 10000 /\ month d < 100 /\ day d < 100 /\
  hour d < 100 /\ minute d < 100 /\ second d < 100.
Proof.
  unfold valid_datetime, char_in.
  rewrite !andb_true_iff, !N.leb_le, !N.ltb_lt. lia.
Qed.

Lemma strftime_is_timestamp (d : datetime) :
  valid_datetime d = true -> is_timestamp (strftime d) = true.
Proof.
  intro H. apply valid_datetime_bounds in H.
  destruct H as (By & Bm & Bd & Bh & Bmi & Bs).
  pose proof (four_digits _ By) as Hy.
  pose proof (two_digits _ Bm) as Hm.
  pose proof (two_digits _ Bd) as Hd.
  pose proof (two_digits _ Bh) as Hh.
  pose proof (two_digits _ Bmi) as Hmi.
  pose proof (two_digits _ Bs) as Hs.
  clear By Bm Bd Bh Bmi Bs.
  unfold strftime.
  destruct (zfill 4 (decimal (year d))) as [|y1 [|y2 [|y3 [|y4 [|? ?]]]]]; try discriminate.
  destruct (zfill 2 (decimal (month d))) as [|m1 [|m2 [|? ?]]]; try discriminate.
  destruct (zfill 2 (decimal (day d))) as [|d1 [|d2 [|? ?]]]; try discriminate.
  destruct (zfill 2 (decimal (hour d))) as [|h1 [|h2 [|? ?]]]; try discriminate.
  destruct (zfill 2 (decimal (minute d))) as [|i1 [|i2 [|? ?]]]; try discriminate.
  destruct (zfill 2 (decimal (second d))) as [|s1 [|s2 [|? ?]]]; try discriminate.
  unfold digits_of_width in *. simpl in *.
  repeat match goal with
  | H : _ && _ = true |- _ => apply andb_true_iff in H; destruct H
  end.
  unfold is_timestamp. simpl.
  repeat match goal with
  | H : is_digit _ = true |- _ => rewrite H; clear H
  end.
  reflexivity.
Qed.

Lemma strftime_same_second (a b : datetime) :
  same_second a b -> strftime a = strftime b.
Proof.
  intros (Hy & Hm & Hd & Hh & Hmi & Hs). unfold strftime.
  now rewrite Hy, Hm, Hd, Hh, Hmi, Hs.
Qed.

(** ** The container *)

Lemma str_eqb_refl (a : str) : str_eqb a a = true.
Proof. now apply str_eqb_eq. Qed.

Lemma get_put_blob (b : BlobProperties) (bs : list BlobProperties) :
  get_blob (name b) (put_blob b bs) = Some b.
Proof.
  unfold get_blob. induction bs as [|b' bs IH]; simpl.
  - now rewrite str_eqb_refl.
  - destruct (str_eqb (name b') (name b)) eqn:Hn; simpl.
    + now rewrite str_eqb_refl.
    + now rewrite Hn.
Qed.

Lemma put_blob_names_again (b b' : BlobProperties) (bs : list BlobProperties) :
  name b' = name b ->
  map name (put_blob b' (put_blob b bs)) = map name (put_blob b bs).
Proof.
  intro Hn. induction bs as [|x bs IH]; simpl.
  - rewrite Hn, str_eqb_refl. simpl. now rewrite Hn.
  - destruct (str_eqb (name x) (name b)) eqn:Hx; simpl.
    + rewrite Hn, str_eqb_refl. simpl. now rewrite Hn.
    + rewrite Hn, Hx. simpl. now rewrite IH.
Qed.

Lemma put_blob_names_NoDup (b : BlobProperties) (bs : list BlobProperties) :
  NoDup (map name bs) -> NoDup (map name (put_blob b bs)).
Proof.
  assert (Hin : forall n l, In n (map name (put_blob b l)) ->
                            n = name b \/ In n (map name l)).
  { intros n l. induction l as [|x l IH]; simpl.
    - intros [<- | []]. now left.
    - destruct (str_eqb (name x) (name b)) eqn:Hx; simpl.
      + intros [<- | H]; auto.
      + intros [<- | H]; auto. destruct (IH H); auto. }
  induction bs as [|x bs IH]; simpl; intro Hnd.
  - repeat constructor. intros [].
  - inversion Hnd as [|? ? Hx Hbs]; subst.
    destruct (str_eqb (name x) (name b)) eqn:Hxb; simpl.
    + apply str_eqb_eq in Hxb. rewrite <- Hxb. now constructor.
    + constructor; [|now apply IH].
      intro H. destruct (Hin _ _ H) as [He | Hi]; [|contradiction].
      rewrite He, str_eqb_refl in Hxb. discriminate.
Qed.

(** ** The order of the gallery *)

Lemma str_leb_trans (a b c : str) :
  str_leb a b = true -> str_leb b c = true -> str_leb a c = true.
Proof.
  unfold str_leb. revert b c.
  induction a as [|x a IH]; intros [|y b] [|z c]; simpl; try congruence.
  destruct (N.compare_spec x y) as [E1 | L1 | G1]; try discriminate;
    destruct (N.compare_spec y z) as [E2 | L2 | G2]; try discriminate;
    subst; intros H1 H2.
  - rewrite N.compare_refl. now apply (IH b c).
  - apply N.compare_lt_iff in L2. now rewrite L2.
  - apply N.compare_lt_iff in L1. now rewrite L1.
  - assert (L : x < z) by lia. apply N.compare_lt_iff in L. now rewrite L.
Qed.

Lemma str_compare_app (p a b : str) :
  str_compare (p ++ a) (p ++ b) = str_compare a b.
Proof.
  induction p as [|x p IH]; simpl; [reflexivity|].
  now rewrite N.compare_refl.
Qed.

Lemma precedes_trans : Transitive (fun a b => is_true (StrReverseOrder.leb a b)).
Proof.
  intros a b c Hab Hbc. unfold is_true, StrReverseOrder.leb in *.
  exact (str_leb_trans c b a Hbc Hab).
Qed.

Lemma sort_reverse_sorted (urls : list str) :
  StronglySorted precedes (sort_reverse urls).
Proof.
  exact (StrReverseSort.StronglySorted_sort urls precedes_trans).
Qed.

Lemma sort_reverse_perm (urls : list str) :
  Permutation urls (sort_reverse urls).
Proof. apply StrReverseSort.Permuted_sort. Qed.

Lemma sort_reverse_pair (a b : str) :
  str_compare a b = Lt -> sort_reverse [a; b] = [b; a].
Proof.
  intro H. unfold sort_reverse. cbn.
  unfold str_leb. rewrite (StrReverseOrder.str_compare_antisym a b), H.
  reflexivity.
Qed.

(** ** The handlers, case by case *)

Lemma gallery_loop_run (base : str) (yielded : list BlobProperties)
    (stop : option exn) (urls : list str) (w : world) :
  gallery_loop base yielded stop urls w =
  match stop with
  | Some e => (Raised e, w)
  | None => (Returned (urls ++ map (fun b => base ++ lit "/" ++ name b) yielded), w)
  end.
Proof.
  revert urls. induction yielded as [|b rest IH]; intro urls; simpl.
  - destruct stop; [reflexivity|]. now rewrite app_nil_r.
  - rewrite IH. destruct stop; [reflexivity|]. now rewrite <- app_assoc.
Qed.

(** A part found among [files req] was read without error. *)
Lemma files_read (req : request) (n : str) (f : FileStorage) :
  files_get n (files req) = Some f -> request_files req = Returned (files req).
Proof.
  unfold files. destruct (request_files req); [reflexivity | discriminate].
Qed.

Lemma files_returned (req : request) (fs : list (str * FileStorage)) :
  request_files req = Returned fs -> files req = fs.
Proof. intro H. unfold files. now rewrite H. Qed.

Lemma read_files_returns {A} (req : request) (fs : list (str * FileStorage))
    (k : list (str * FileStorage) -> M A) (w : world) :
  request_files req = Returned fs -> bind (read_files req) k w = k fs w.
Proof. intro H. unfold bind, read_files. now rewrite H. Qed.

Lemma read_files_raises {A} (req : request) (e : exn)
    (k : list (str * FileStorage) -> M A) (w : world) :
  request_files req = Raised e -> bind (read_files req) k w = (Raised e, w).
Proof. intro H. unfold bind, read_files. now rewrite H. Qed.

(** A declared length over the limit makes the read raise. *)
Lemma request_files_too_large (req : request) (n : N) :
  content_length req = Some n -> MAX_CONTENT_LENGTH < n ->
  request_files req = Raised RequestEntityTooLarge.
Proof.
  intros Hn Hlt. unfold request_files. rewrite Hn.
  apply N.ltb_lt in Hlt. now rewrite Hlt.
Qed.

Section UploadCases.

Variable U : unicodedata.
Variable os : os_name.
Variable E : env.
Variable req : request.
Variable w : world.

Lemma upload_files_raise (e : exn) :
  request_files req = Raised e ->
  upload U os E req w =
  (Returned (json_error (str_exc e), 500),
   {| store := store w;
      trace := trace w ++ [log_exception (lit "Upload failed") e] |}).
Proof.
  intro H. unfold upload, try_except. now rewrite (read_files_raises req e _ w H).
Qed.

Lemma upload_missing_file (fs : list (str * FileStorage)) :
  request_files req = Returned fs ->
  files_get (lit "file") fs = None ->
  upload U os E req w = (Returned (json_error (lit "Missing file"), 400), w).
Proof.
  intros Hfs H. unfold upload, try_except.
  now rewrite (read_files_returns req fs _ w Hfs), H.
Qed.

Variable f : FileStorage.
Hypothesis Hfile : files_get (lit "file") (files req) = Some f.

Lemma upload_empty_filename :
  filename_is_empty f = true ->
  upload U os E req w = (Returned (json_error (lit "Empty filename"), 400), w).
Proof.
  intro H. unfold upload, try_except.
  now rewrite (read_files_returns req _ _ w (files_read req _ f Hfile)), Hfile, H.
Qed.

Lemma upload_not_image :
  filename_is_empty f = false ->
  _is_image_upload U f = false ->
  upload U os E req w =
  (Returned (json_error (lit "Only image/* content types are allowed"), 400), w).
Proof.
  intros H1 H2. unfold upload, try_except.
  now rewrite (read_files_returns req _ _ w (files_read req _ f Hfile)), Hfile, H1, H2.
Qed.

Lemma upload_stored :
  filename_is_empty f = false ->
  _is_image_upload U f = true ->
  upload_fault E = None ->
  let key := _timestamped_name U os (now_utc E) (filename f) in
  let blob_url := url (store w) ++ lit "/" ++ key in
  upload U os E req w =
  (Returned (json_ok_url blob_url, 200),
   {| store :=
        {| url := url (store w);
           blobs :=
             put_blob {| name := key; content := stream f; content_type := mimetype f |}
               (blobs (store w)) |};
      trace :=
        trace w ++ [call_upload_blob key (stream f) true (mimetype f);
                    log_info (lit "Uploaded " ++ blob_url)] |}).
Proof.
  intros H1 H2 H3. unfold upload, try_except.
  rewrite (read_files_returns req _ _ w (files_read req _ f Hfile)), Hfile, H1, H2.
  unfold upload_blob, logger_info, logger_exception, container_url, bind, emit, ret.
  rewrite H3. cbn [negb andb store trace url blobs fst snd].
  now rewrite <- app_assoc.
Qed.

Lemma upload_store_raises (e : exn) :
  filename_is_empty f = false ->
  _is_image_upload U f = true ->
  upload_fault E = Some e ->
  let key := _timestamped_name U os (now_utc E) (filename f) in
  upload U os E req w =
  (Returned (json_error (str_exc e), 500),
   {| store := store w;
      trace :=
        trace w ++ [call_upload_blob key (stream f) true (mimetype f);
                    log_exception (lit "Upload failed") e] |}).
Proof.
  intros H1 H2 H3. unfold upload, try_except.
  rewrite (read_files_returns req _ _ w (files_read req _ f Hfile)), Hfile, H1, H2.
  unfold upload_blob, logger_info, logger_exception, container_url, bind, emit, ret.
  rewrite H3. cbn [negb andb store trace url blobs fst snd].
  now rewrite <- app_assoc.
Qed.

End UploadCases.

Lemma gallery_listed (E : env) (w : world) :
  list_fault E = None ->
  gallery E w =
  (Returned
     (json_ok_gallery
        (sort_reverse
           (map (fun b => url (store w) ++ lit "/" ++ name b) (blobs (store w)))),
      200),
   {| store := store w; trace := trace w ++ [call_list_blobs] |}).
Proof.
  intro H. unfold gallery, try_except, list_blobs, logger_exception, container_url, bind, emit, ret.
  rewrite H. cbn [store trace fst snd].
  rewrite gallery_loop_run. reflexivity.
Qed.

Lemma gallery_listing_raises (E : env) (w : world) (n : nat) (e : exn) :
  list_fault E = Some (n, e) ->
  gallery E w =
  (Returned (json_error (str_exc e), 500),
   {| store := store w;
      trace := trace w ++ [call_list_blobs;
                           log_exception (lit "Gallery fetch failed") e] |}).
Proof.
  intro H. unfold gallery, try_except, list_blobs, logger_exception, container_url, bind, emit, ret.
  rewrite H. cbn [store trace fst snd].
  rewrite gallery_loop_run. cbn [store trace].
  now rewrite <- app_assoc.
Qed.

Lemma filename_is_empty_iff (f : FileStorage) :
  filename_is_empty f = true <-> filename f = Some [].
Proof.
  unfold filename_is_empty.
  destruct (filename f) as [[|c s]|]; split; intro H;
    try reflexivity; discriminate.
Qed.

Lemma or_str_nonempty (s default : str) :
  s <> [] -> or_str (Some s) default = s.
Proof. destruct s; [congruence | reflexivity]. Qed.

Lemma filename_ascii_char_facts (c : char) :
  filename_ascii_char c = true -> c <> 47 /\ c <> 92 /\ isspace c = false.
Proof.
  intro H.
  assert (Hr : 45 <= c <= 122) by (char_facts; lia).
  assert (Hn : c <> 47 /\ c <> 92) by (char_facts; lia).
  destruct Hn as (H47 & H92).
  repeat split; try assumption.
  unfold isspace, char_in.
  repeat (apply orb_false_iff; split);
    try (apply andb_false_iff; (left; apply N.leb_gt; lia) || (right; apply N.leb_gt; lia));
    try (apply N.eqb_neq; lia).
Qed.

(** ** ASCII input never reads the Unicode tables *)

Lemma normalize_NFKD_ascii (U : unicodedata) (s : str) :
  forallb is_ascii s = true -> normalize_NFKD U s = s.
Proof.
  induction s as [|c s IH]; simpl; [reflexivity|].
  intro H. apply andb_true_iff in H as [Hc Hs].
  rewrite Hc. simpl. now rewrite IH.
Qed.

Lemma lower_ascii (U : unicodedata) (s : str) :
  forallb is_ascii s = true -> lower U s = map ascii_lower s.
Proof.
  induction s as [|c s IH]; simpl; [reflexivity|].
  intro H. apply andb_true_iff in H as [Hc Hs].
  rewrite Hc. simpl. now rewrite IH.
Qed.

Lemma upper_ascii (U : unicodedata) (s : str) :
  Forall (fun c => is_ascii c = true) s -> upper U s = map ascii_upper s.
Proof.
  induction 1 as [|c s Hc Hs IH]; simpl; [reflexivity|].
  rewrite Hc. simpl. now rewrite IH.
Qed.

Lemma Forall_split_first (P : char -> Prop) (sep : char) (s : str) :
  Forall P s -> Forall P (split_first sep s).
Proof.
  induction 1 as [|c s Hc Hs IH]; simpl; [constructor|].
  destruct (c =? sep); now constructor.
Qed.

Lemma filename_ascii_char_is_ascii (c : char) :
  filename_ascii_char c = true -> is_ascii c = true.
Proof.
  intro H. assert (Hr : c <= 122) by (char_facts; lia).
  apply N.ltb_lt. lia.
Qed.

Lemma secure_filename_ascii (U : unicodedata) (os : os_name) (s : str) :
  forallb is_ascii s = true ->
  secure_filename U os s = secure_filename no_unicodedata os s.
Proof.
  intro H. unfold secure_filename.
  rewrite !normalize_NFKD_ascii by exact H.
  set (t := strip _ _).
  destruct os; [reflexivity|].
  assert (Ht : Forall (fun c => is_ascii c = true) t).
  { apply Forall_strip. unfold filename_ascii_strip.
    apply Forall_forall. intros c Hc. apply filter_In in Hc.
    now apply filename_ascii_char_is_ascii. }
  destruct t as [|c t']; [reflexivity|].
  rewrite !upper_ascii by (apply Forall_split_first; exact Ht).
  reflexivity.
Qed.

(** * The claims *)

(** C1, as amended. For every client-supplied filename, the sanitized
    filename component of the storage key (what follows the timestamp and
    the hyphen) is made of ASCII letters, digits, underscores, dots and
    hyphens only, so it holds no path separator, no whitespace and no other
    special character; it is the literal [upload] when the supplied filename
    is [None] or empty; every ASCII letter, digit and hyphen of the supplied
    filename, those of its directory components included, occurs in it, so
    it is non-empty whenever the supplied filename holds one. *)
Theorem sanitized_filename_safe (U : unicodedata) (os : os_name)
    (now : datetime) (original_filename : option str) :
  exists safe,
    safe = secure_filename U os (or_str original_filename (lit "upload")) /\
    _timestamped_name U os now original_filename = strftime now ++ lit "-" ++ safe /\
    Forall (fun c => filename_ascii_char c = true) safe /\
    (forall c, In c safe -> c <> 47 /\ c <> 92 /\ isspace c = false) /\
    (original_filename = None \/ original_filename = Some [] ->
     safe = lit "upload") /\
    (forall s c, original_filename = Some s -> In c s -> kept_char c = true ->
     In c safe /\ safe <> []).
Proof.
  eexists. split; [reflexivity|].
  split; [reflexivity|].
  split; [apply secure_filename_chars|].
  split.
  { intros c Hc. apply filename_ascii_char_facts.
    pose proof (secure_filename_chars U os (or_str original_filename (lit "upload"))) as H.
    rewrite Forall_forall in H. now apply H. }
  split.
  { intros [-> | ->]; apply secure_filename_upload. }
  intros s c -> Hin Hk.
  assert (Hs : s <> []) by (destruct s; [destruct Hin | discriminate]).
  rewrite (or_str_nonempty s _ Hs).
  pose proof (secure_filename_keeps U os c s Hk Hin) as H.
  split; [exact H|].
  intro Hnil. rewrite Hnil in H. destruct H.
Qed.

(** The sanitized component can be empty, and directory names are kept:
    for the filename [???] of an image upload the key is the timestamp and
    the hyphen alone, and [dir/a.png] becomes [dir_a.png]. *)
Lemma sanitized_filename_can_be_empty :
  secure_filename no_unicodedata posix
    (or_str (filename Sample.question_marks) (lit "upload")) = [] /\
  _timestamped_name no_unicodedata posix Sample.now
    (filename Sample.question_marks) = lit "20240601T000509-" /\
  fst (upload no_unicodedata posix Sample.healthy
         (Sample.request_with Sample.question_marks) Sample.w0) =
  Returned (json_ok_url (Sample.base_url ++ lit "/20240601T000509-"), 200) /\
  secure_filename no_unicodedata posix (or_str (Some (lit "dir/a.png")) (lit "upload")) =
  lit "dir_a.png".
Proof. repeat split; vm_compute; reflexivity. Qed.



(** C3, as amended. For every upload request that is read without error
    (reading [request.files] raises nothing; a body declared over
    [MAX_CONTENT_LENGTH] makes it raise) and whose file part declares a
    content type that does not start with [image/] (compared
    case-insensitively), whatever the payload bytes, the upload handler
    returns ok:false with status 400; the error is "Only image/* content
    types are allowed" when the filename of the part is not the empty
    string, and "Empty filename" when it is. *)
Theorem non_image_rejected (U : unicodedata) (os : os_name) (E : env)
    (req : request) (w : world) (fs : list (str * FileStorage))
    (fn mt : option str) (payload : bytes) :
  request_files req = Returned fs ->
  files_get (lit "file") fs =
    Some {| filename := fn; mimetype := mt; stream := payload |} ->
  startswith (lower U (or_str mt [])) (lit "image/") = false ->
  exists msg,
    upload U os E req w = (Returned (json_error msg, 400), w) /\
    ok (json_error msg) = false /\
    (fn <> Some [] -> msg = lit "Only image/* content types are allowed") /\
    (fn = Some [] -> msg = lit "Empty filename").
Proof.
  intros Hfs Hfile Himg.
  rewrite <- (files_returned req fs Hfs) in Hfile.
  set (f := {| filename := fn; mimetype := mt; stream := payload |}) in *.
  destruct (filename_is_empty f) eqn:Hname.
  - exists (lit "Empty filename").
    split; [now apply (upload_empty_filename U os E req w f)|].
    split; [reflexivity|].
    apply filename_is_empty_iff in Hname. simpl in Hname.
    split; [congruence | reflexivity].
  - exists (lit "Only image/* content types are allowed").
    split; [now apply (upload_not_image U os E req w f)|].
    split; [reflexivity|].
    split; [reflexivity|].
    intro Hfn. apply (filename_is_empty_iff f) in Hfn. congruence.
Qed.

Lemma non_image_rejected_witness :
  upload no_unicodedata posix Sample.healthy
    (Sample.request_with Sample.text_note) Sample.w0 =
  (Returned (json_error (lit "Only image/* content types are allowed"), 400),
   Sample.w0).
Proof.
  destruct (non_image_rejected no_unicodedata posix Sample.healthy
              (Sample.request_with Sample.text_note) Sample.w0
              [(lit "file", Sample.text_note)]
              (Some (lit "note.txt")) (Some (lit "text/plain")) [104; 105]
              eq_refl eq_refl eq_refl)
    as (msg & Hup & _ & Hmsg & _).
  rewrite Hup, Hmsg; [reflexivity | discriminate].
Defined.

(** Two requests whose file part declares a content type that is not an
    image and that are not answered "Only image/* content types are
    allowed" with 400. The check of the filename comes first: a part with
    the empty filename and the content type [application/octet-stream],
    which a browser sends when no file is selected, is answered "Empty
    filename". And a body declared at 20 MiB makes the read of
    [request.files] raise inside the [try]: the text file it carries is
    answered 500, with the string of the exception. *)
Lemma empty_filename_checked_first :
  startswith
    (lower no_unicodedata (or_str (mimetype Sample.nothing_selected) []))
    (lit "image/") = false /\
  upload no_unicodedata posix Sample.healthy
    (Sample.request_with Sample.nothing_selected) Sample.w0 =
  (Returned (json_error (lit "Empty filename"), 400), Sample.w0) /\
  files_get (lit "file") (parts (Sample.oversized Sample.text_note)) =
  Some Sample.text_note /\
  _is_image_upload no_unicodedata Sample.text_note = false /\
  fst (upload no_unicodedata posix Sample.healthy
         (Sample.oversized Sample.text_note) Sample.w0) =
  Returned
    (json_error
       (lit "413 Request Entity Too Large: The data value transmitted exceeds the capacity limit."),
     500).
Proof. repeat split; reflexivity. Qed.

(** C4, as amended. For every upload request that is read without error
    and fails validation (no part named [file], an empty filename, or a
    disallowed content type), the upload handler returns ok:false with
    status 400 and the message of a check the request fails (the first
    one), and the world is left as it was: no call of the container, no
    blob written. When reading [request.files] raises instead (a body
    declared over [MAX_CONTENT_LENGTH], a fault of the parser), the handler
    returns ok:false with status 500 and the string of the exception, and
    again makes no call of the container and writes no blob. *)
Theorem validation_failure_no_store (U : unicodedata) (os : os_name) (E : env)
    (req : request) (w : world) :
  (forall fs,
     request_files req = Returned fs ->
     (files_get (lit "file") fs = None \/
      exists f, files_get (lit "file") fs = Some f /\
                (filename f = Some [] \/ _is_image_upload U f = false)) ->
     exists msg,
       upload U os E req w = (Returned (json_error msg, 400), w) /\
       ok (json_error msg) = false /\
       ((msg = lit "Missing file" /\ files_get (lit "file") fs = None) \/
        (msg = lit "Empty filename" /\
         exists f, files_get (lit "file") fs = Some f /\ filename f = Some []) \/
        (msg = lit "Only image/* content types are allowed" /\
         exists f, files_get (lit "file") fs = Some f /\
                   filename f <> Some [] /\ _is_image_upload U f = false))) /\
  (forall e,
     request_files req = Raised e ->
     exists w' events,
       upload U os E req w = (Returned (json_error (str_exc e), 500), w') /\
       store w' = store w /\
       trace w' = trace w ++ events /\
       filter is_store_call events = []).
Proof.
  split.
  - intros fs Hfs [Hnone | (f & Hfile & Hbad)].
    + exists (lit "Missing file").
      split; [now apply (upload_missing_file U os E req w fs)|].
      split; [reflexivity|]. now left.
    + pose proof Hfile as Hfile'.
      rewrite <- (files_returned req fs Hfs) in Hfile'.
      destruct (filename_is_empty f) eqn:Hname.
      * exists (lit "Empty filename").
        split; [now apply (upload_empty_filename U os E req w f)|].
        split; [reflexivity|].
        right; left. split; [reflexivity|].
        exists f. split; [exact Hfile|]. now apply filename_is_empty_iff.
      * assert (Hne : filename f <> Some []).
        { intro H. apply filename_is_empty_iff in H. congruence. }
        destruct Hbad as [Hbad | Himg]; [contradiction|].
        exists (lit "Only image/* content types are allowed").
        split; [now apply (upload_not_image U os E req w f)|].
        split; [reflexivity|].
        right; right. split; [reflexivity|].
        exists f. auto.
  - intros e He. rewrite (upload_files_raise U os E req w e He).
    do 2 eexists. split; [reflexivity|].
    split; [reflexivity|]. split; reflexivity.
Qed.

Lemma validation_failure_no_store_witness :
  upload no_unicodedata posix Sample.healthy Sample.no_file Sample.w0 =
  (Returned (json_error (lit "Missing file"), 400), Sample.w0) /\
  upload no_unicodedata posix Sample.healthy
    (Sample.request_with Sample.text_note) Sample.w0 =
  (Returned (json_error (lit "Only image/* content types are allowed"), 400),
   Sample.w0).
Proof.
  split.
  - destruct (proj1 (validation_failure_no_store no_unicodedata posix
                       Sample.healthy Sample.no_file Sample.w0)
                [] eq_refl (or_introl eq_refl))
      as (msg & Hup & _ & [[Hmsg _] | [[_ (f & Hf & _)] | [_ (f & Hf & _)]]]).
    + rewrite Hup, Hmsg. reflexivity.
    + discriminate Hf.
    + discriminate Hf.
  - destruct (proj1 (validation_failure_no_store no_unicodedata posix
                       Sample.healthy (Sample.request_with Sample.text_note)
                       Sample.w0)
                [(lit "file", Sample.text_note)] eq_refl
                (or_intror (ex_intro _ Sample.text_note
                              (conj eq_refl (or_intror eq_refl)))))
      as (msg & Hup & _ & [[_ Hf] | [[_ (f & Hf & Hn)] | [Hmsg _]]]).
    + discriminate Hf.
    + injection Hf as <-. discriminate Hn.
    + rewrite Hup, Hmsg. reflexivity.
Defined.

(** A request that fails validation and is not answered 400: the body has no
    part named [file] (and, in the second case, a text file) but declares
    20 MiB, so the read of [request.files] raises inside the [try] and the
    answer is 500 with the string of the exception. *)
Lemma oversized_request_answered_500 :
  files_get (lit "file") (parts Sample.oversized_no_file) = None /\
  upload no_unicodedata posix Sample.healthy Sample.oversized_no_file Sample.w0 =
  (Returned
     (json_error
        (lit "413 Request Entity Too Large: The data value transmitted exceeds the capacity limit."),
      500),
   {| store := store Sample.w0;
      trace := [log_exception (lit "Upload failed") RequestEntityTooLarge] |}) /\
  fst (upload no_unicodedata posix Sample.healthy
         (Sample.oversized Sample.text_note) Sample.w0) =
  Returned
    (json_error
       (lit "413 Request Entity Too Large: The data value transmitted exceeds the capacity limit."),
     500).
Proof. repeat split; reflexivity. Qed.

(** C5. For every valid image upload whose store write succeeds, the upload
    handler returns ok:true with status 200 and the URL made of the base URL
    of the container, a slash and the storage key; the key is a suffix of
    the URL and the blob is stored under it. *)
Theorem upload_success_url (U : unicodedata) (os : os_name) (E : env)
    (req : request) (w : world) (f : FileStorage) :
  files_get (lit "file") (files req) = Some f ->
  filename_is_empty f = false ->
  _is_image_upload U f = true ->
  upload_fault E = None ->
  exists key blob_url w',
    upload U os E req w = (Returned (json_ok_url blob_url, 200), w') /\
    ok (json_ok_url blob_url) = true /\
    key = _timestamped_name U os (now_utc E) (filename f) /\
    blob_url = url (store w) ++ lit "/" ++ key /\
    (exists prefix, blob_url = prefix ++ key) /\
    url (store w') = url (store w) /\
    get_blob key (blobs (store w')) =
    Some {| name := key; content := stream f; content_type := mimetype f |}.
Proof.
  intros Hfile Hname Himg Hfault.
  exists (_timestamped_name U os (now_utc E) (filename f)).
  eexists. eexists.
  split; [apply (upload_stored U os E req w f Hfile Hname Himg Hfault)|].
  split; [reflexivity|].
  split; [reflexivity|].
  split; [reflexivity|].
  split.
  { exists (url (store w) ++ lit "/"). now rewrite <- app_assoc. }
  split; [reflexivity|].
  cbn [store blobs].
  apply (get_put_blob
           {| name := _timestamped_name U os (now_utc E) (filename f);
              content := stream f; content_type := mimetype f |}).
Qed.

Lemma upload_success_url_witness :
  fst (upload no_unicodedata posix Sample.healthy
         (Sample.request_with Sample.photo) Sample.w0) =
  Returned
    (json_ok_url (Sample.base_url ++ lit "/20240601T000509-my_photo.PNG"), 200).
Proof.
  destruct (upload_success_url no_unicodedata posix Sample.healthy
              (Sample.request_with Sample.photo) Sample.w0 Sample.photo
              eq_refl eq_refl eq_refl eq_refl)
    as (key & blob_url & w' & Hup & _ & Hkey & Hurl & _).
  rewrite Hup, Hurl, Hkey. reflexivity.
Defined.

(** C6. For every gallery call whose listing succeeds, the handler returns
    ok:true with status 200 and the whole list: one URL, the base URL, a
    slash and the key, for each blob of the listing, in descending
    lexicographic order; for the listing of [20240101T000000-a.png] and
    [20240601T000000-b.png] the URL of the latter comes first. *)
Theorem gallery_sorted_descending (E : env) (w : world) :
  list_fault E = None ->
  exists urls w',
    gallery E w = (Returned (json_ok_gallery urls, 200), w') /\
    ok (json_ok_gallery urls) = true /\
    Permutation
      (map (fun b => url (store w) ++ lit "/" ++ name b) (blobs (store w))) urls /\
    length urls = length (blobs (store w)) /\
    StronglySorted precedes urls /\
    (map name (blobs (store w)) =
       [lit "20240101T000000-a.png"; lit "20240601T000000-b.png"] ->
     urls = [url (store w) ++ lit "/" ++ lit "20240601T000000-b.png";
             url (store w) ++ lit "/" ++ lit "20240101T000000-a.png"]).
Proof.
  intro Hlist. eexists. eexists.
  split; [apply (gallery_listed E w Hlist)|].
  split; [reflexivity|].
  split; [apply sort_reverse_perm|].
  split.
  { rewrite <- (length_map (fun b => url (store w) ++ lit "/" ++ name b)).
    symmetry. apply Permutation_length, sort_reverse_perm. }
  split; [apply sort_reverse_sorted|].
  intro Hnames.
  destruct (blobs (store w)) as [|b1 [|b2 [|b3 bs]]]; try discriminate.
  injection Hnames as H1 H2. simpl map. rewrite H1, H2.
  apply sort_reverse_pair.
  rewrite str_compare_app. reflexivity.
Qed.

Lemma gallery_sorted_descending_witness :
  fst (gallery Sample.healthy Sample.w0) =
  Returned
    (json_ok_gallery
       [Sample.base_url ++ lit "/20240601T000000-b.png";
        Sample.base_url ++ lit "/20240101T000000-a.png"], 200).
Proof.
  destruct (gallery_sorted_descending Sample.healthy Sample.w0 eq_refl)
    as (urls & w' & Hg & _ & _ & _ & _ & Hex).
  rewrite Hg, (Hex eq_refl). reflexivity.
Defined.

(** C7. For every exception raised by a call of the container, the upload
    handler and the gallery handler return ok:false with status 500 and, as
    error, the string of the exception; the container was called once (no
    retry), and the response carries no URL and no list. *)
Theorem store_exception_500 (U : unicodedata) (os : os_name) (E : env)
    (w : world) (e : exn) :
  (forall req f,
     files_get (lit "file") (files req) = Some f ->
     filename_is_empty f = false ->
     _is_image_upload U f = true ->
     upload_fault E = Some e ->
     exists w',
       upload U os E req w = (Returned (json_error (str_exc e), 500), w') /\
       store w' = store w /\
       trace w' =
       trace w ++
       [call_upload_blob (_timestamped_name U os (now_utc E) (filename f))
          (stream f) true (mimetype f);
        log_exception (lit "Upload failed") e]) /\
  (forall n,
     list_fault E = Some (n, e) ->
     exists w',
       gallery E w = (Returned (json_error (str_exc e), 500), w') /\
       store w' = store w /\
       trace w' =
       trace w ++ [call_list_blobs; log_exception (lit "Gallery fetch failed") e]) /\
  ok (json_error (str_exc e)) = false.
Proof.
  split; [|split; [|reflexivity]].
  - intros req f Hfile Hname Himg Hfault. eexists.
    split; [apply (upload_store_raises U os E req w f Hfile e Hname Himg Hfault)|].
    split; reflexivity.
  - intros n Hfault. eexists.
    split; [apply (gallery_listing_raises E w n e Hfault)|].
    split; reflexivity.
Qed.

Lemma store_exception_500_witness :
  fst (upload no_unicodedata posix Sample.failing
         (Sample.request_with Sample.photo) Sample.w0) =
  Returned (json_error (exn_message Sample.AuthorizationFailure), 500) /\
  fst (gallery Sample.failing Sample.w0) =
  Returned (json_error (exn_message Sample.AuthorizationFailure), 500).
Proof.
  destruct (store_exception_500 no_unicodedata posix Sample.failing Sample.w0
              Sample.AuthorizationFailure) as (Hup & Hga & _).
  destruct (Hup (Sample.request_with Sample.photo) Sample.photo
              eq_refl eq_refl eq_refl eq_refl) as (w1 & H1 & _).
  destruct (Hga 1%nat eq_refl) as (w2 & H2 & _).
  rewrite H1, H2. split; reflexivity.
Defined.

(** C8. For two valid uploads of the same client filename whose keys are
    generated within the same UTC second, both uploads use the same storage
    key, the second replaces the blob of the first (no blob is added, and
    names stay unique if they were) and both calls return the same URL. *)
Theorem same_second_same_key (U : unicodedata) (os : os_name) (E1 E2 : env)
    (req1 req2 : request) (w : world) (f1 f2 : FileStorage) :
  files_get (lit "file") (files req1) = Some f1 ->
  files_get (lit "file") (files req2) = Some f2 ->
  filename_is_empty f1 = false ->
  filename f2 = filename f1 ->
  _is_image_upload U f1 = true ->
  _is_image_upload U f2 = true ->
  same_second (now_utc E1) (now_utc E2) ->
  upload_fault E1 = None ->
  upload_fault E2 = None ->
  exists key blob_url w1 w2,
    _timestamped_name U os (now_utc E1) (filename f1) = key /\
    _timestamped_name U os (now_utc E2) (filename f2) = key /\
    upload U os E1 req1 w = (Returned (json_ok_url blob_url, 200), w1) /\
    upload U os E2 req2 w1 = (Returned (json_ok_url blob_url, 200), w2) /\
    get_blob key (blobs (store w2)) =
    Some {| name := key; content := stream f2; content_type := mimetype f2 |} /\
    map name (blobs (store w2)) = map name (blobs (store w1)) /\
    (NoDup (map name (blobs (store w))) -> NoDup (map name (blobs (store w2)))).
Proof.
  intros Hfile1 Hfile2 Hname1 Hsame Himg1 Himg2 Hsec Hfault1 Hfault2.
  assert (Hname2 : filename_is_empty f2 = false).
  { unfold filename_is_empty in *. now rewrite Hsame. }
  assert (Hkey : _timestamped_name U os (now_utc E2) (filename f2) =
                 _timestamped_name U os (now_utc E1) (filename f1)).
  { unfold _timestamped_name.
    now rewrite Hsame, (strftime_same_second _ _ Hsec). }
  exists (_timestamped_name U os (now_utc E1) (filename f1)).
  eexists. eexists. eexists.
  split; [reflexivity|].
  split; [exact Hkey|].
  split; [apply (upload_stored U os E1 req1 w f1 Hfile1 Hname1 Himg1 Hfault1)|].
  split.
  { rewrite (upload_stored U os E2 req2 _ f2 Hfile2 Hname2 Himg2 Hfault2).
    cbn [store url blobs trace]. rewrite Hkey. reflexivity. }
  cbn [store url blobs trace]. split.
  - apply (get_put_blob
             {| name := _timestamped_name U os (now_utc E1) (filename f1);
                content := stream f2; content_type := mimetype f2 |}).
  - split; [now apply put_blob_names_again|].
    intro Hnd. now do 2 apply put_blob_names_NoDup.
Qed.

Lemma same_second_same_key_witness :
  exists w1 w2,
    upload no_unicodedata posix Sample.healthy
      (Sample.request_with Sample.photo) Sample.w0 =
    (Returned
       (json_ok_url (Sample.base_url ++ lit "/20240601T000509-my_photo.PNG"), 200),
     w1) /\
    upload no_unicodedata posix Sample.healthy_later
      (Sample.request_with Sample.photo_again) w1 =
    (Returned
       (json_ok_url (Sample.base_url ++ lit "/20240601T000509-my_photo.PNG"), 200),
     w2) /\
    get_blob (lit "20240601T000509-my_photo.PNG") (blobs (store w2)) =
    Some {| name := lit "20240601T000509-my_photo.PNG"; content := [255; 216];
            content_type := Some (lit "image/jpeg") |}.
Proof.
  destruct (same_second_same_key no_unicodedata posix Sample.healthy
              Sample.healthy_later (Sample.request_with Sample.photo)
              (Sample.request_with Sample.photo_again) Sample.w0
              Sample.photo Sample.photo_again
              eq_refl eq_refl eq_refl eq_refl eq_refl eq_refl
              (conj eq_refl (conj eq_refl (conj eq_refl
                 (conj eq_refl (conj eq_refl eq_refl)))))
              eq_refl eq_refl)
    as (key & blob_url & w1 & w2 & Hk1 & _ & Hup1 & Hup2 & Hget & _).
  exists w1, w2.
  assert (Hk : key = lit "20240601T000509-my_photo.PNG")
    by (rewrite <- Hk1; reflexivity).
  assert (Hu : blob_url = Sample.base_url ++ lit "/20240601T000509-my_photo.PNG").
  { pose proof (upload_stored no_unicodedata posix Sample.healthy
                  (Sample.request_with Sample.photo) Sample.w0 Sample.photo
                  eq_refl eq_refl eq_refl eq_refl) as H.
    rewrite Hup1 in H. injection H as H _. rewrite H. reflexivity. }
  rewrite Hup1, Hup2, <- Hk, Hget, Hu.
  repeat split.
Defined.

(** C9. The health handler returns the body [ok: true] with status 200 in
    every world, which it leaves as it is: it reads neither the container
    nor anything else. *)
Theorem health_ok (w : world) :
  health w = (Returned (json_ok, 200), w) /\ ok json_ok = true.
Proof. split; reflexivity. Qed.

(** C10, as amended. For every upload request that is read without error
    and whose file part carries no declared content type ([None], or the
    empty string a missing type arrives as), the content type is treated as
    the empty string and the part is not an image upload; nothing is raised
    and the handler returns ok:false with status 400. The rejection is the
    one for non-image content, "Only image/* content types are allowed",
    when the filename of the part is not the empty string, and "Empty
    filename" when it is. *)
Theorem missing_content_type_rejected (U : unicodedata) (os : os_name)
    (E : env) (req : request) (w : world) (fs : list (str * FileStorage))
    (f : FileStorage) :
  request_files req = Returned fs ->
  files_get (lit "file") fs = Some f ->
  mimetype f = None \/ mimetype f = Some [] ->
  _is_image_upload U f = false /\
  _is_image_upload U f =
  _is_image_upload U
    {| filename := filename f; mimetype := Some []; stream := stream f |} /\
  exists msg,
    upload U os E req w = (Returned (json_error msg, 400), w) /\
    ok (json_error msg) = false /\
    (filename f <> Some [] ->
     msg = lit "Only image/* content types are allowed") /\
    (filename f = Some [] -> msg = lit "Empty filename").
Proof.
  intros Hfs Hfile Hmt.
  rewrite <- (files_returned req fs Hfs) in Hfile.
  assert (Himg : _is_image_upload U f = false).
  { unfold _is_image_upload. destruct Hmt as [-> | ->]; reflexivity. }
  split; [exact Himg|].
  split.
  { unfold _is_image_upload. destruct Hmt as [-> | ->]; reflexivity. }
  destruct (filename_is_empty f) eqn:Hname.
  - exists (lit "Empty filename").
    split; [now apply (upload_empty_filename U os E req w f)|].
    split; [reflexivity|].
    apply filename_is_empty_iff in Hname.
    split; [congruence | reflexivity].
  - exists (lit "Only image/* content types are allowed").
    split; [now apply (upload_not_image U os E req w f)|].
    split; [reflexivity|].
    split; [reflexivity|].
    intro Hfn. apply filename_is_empty_iff in Hfn. congruence.
Qed.

Lemma missing_content_type_rejected_witness :
  _is_image_upload no_unicodedata Sample.untyped = false /\
  upload no_unicodedata posix Sample.healthy
    (Sample.request_with Sample.untyped) Sample.w0 =
  (Returned (json_error (lit "Only image/* content types are allowed"), 400),
   Sample.w0).
Proof.
  destruct (missing_content_type_rejected no_unicodedata posix Sample.healthy
              (Sample.request_with Sample.untyped) Sample.w0
              [(lit "file", Sample.untyped)] Sample.untyped
              eq_refl eq_refl (or_introl eq_refl))
    as (Himg & _ & msg & Hup & _ & Hmsg & _).
  split; [exact Himg|].
  rewrite Hup, Hmsg; [reflexivity | discriminate].
Defined.

(** Two requests whose file part carries no content type and that are not
    rejected as non-image with 400: with the empty filename the answer is
    "Empty filename", from the earlier check; and in a body declared at
    20 MiB the read of [request.files] raises, which is answered 500. *)
Lemma untyped_part_other_answers :
  mimetype Sample.untyped_unnamed = None /\
  upload no_unicodedata posix Sample.healthy
    (Sample.request_with Sample.untyped_unnamed) Sample.w0 =
  (Returned (json_error (lit "Empty filename"), 400), Sample.w0) /\
  mimetype Sample.untyped = None /\
  files_get (lit "file") (parts (Sample.oversized Sample.untyped)) =
  Some Sample.untyped /\
  fst (upload no_unicodedata posix Sample.healthy
         (Sample.oversized Sample.untyped) Sample.w0) =
  Returned
    (json_error
       (lit "413 Request Entity Too Large: The data value transmitted exceeds the capacity limit."),
     500).
Proof. repeat split; reflexivity. Qed.

(** * Further properties of the handlers and of the start-up code *)

(** ** The container under [put_blob] *)

Lemma get_put_blob_other (n : str) (b : BlobProperties) (bs : list BlobProperties) :
  n <> name b -> get_blob n (put_blob b bs) = get_blob n bs.
Proof.
  intro Hn. unfold get_blob.
  assert (Hb : str_eqb (name b) n = false).
  { destruct (str_eqb (name b) n) eqn:H; [|reflexivity].
    apply str_eqb_eq in H. congruence. }
  induction bs as [|x bs IH]; simpl.
  - now rewrite Hb.
  - destruct (str_eqb (name x) (name b)) eqn:Hx; simpl.
    + apply str_eqb_eq in Hx. rewrite Hx, Hb. reflexivity.
    + destruct (str_eqb (name x) n); [reflexivity | exact IH].
Qed.

Lemma put_blob_keeps_names (n : str) (b : BlobProperties) (bs : list BlobProperties) :
  In n (map name bs) -> In n (map name (put_blob b bs)).
Proof.
  induction bs as [|x bs IH]; simpl; [tauto|].
  destruct (str_eqb (name x) (name b)) eqn:Hx; simpl.
  - apply str_eqb_eq in Hx. intros [H | H]; [left; congruence | now right].
  - intros [H | H]; [now left | right; now apply IH].
Qed.

Lemma put_blob_has_name (b : BlobProperties) (bs : list BlobProperties) :
  In (name b) (map name (put_blob b bs)).
Proof.
  induction bs as [|x bs IH]; simpl; [now left|].
  destruct (str_eqb (name x) (name b)); simpl; [now left | now right].
Qed.

Lemma put_blob_length (b : BlobProperties) (bs : list BlobProperties) :
  (length bs <= length (put_blob b bs) <= S (length bs))%nat.
Proof.
  induction bs as [|x bs IH]; simpl; [lia|].
  destruct (str_eqb (name x) (name b)); simpl; lia.
Qed.

(** ** The upload handler on every request *)

(** The five ways a call of [upload] can go. *)
Lemma upload_cases (U : unicodedata) (os : os_name) (E : env) (req : request)
    (w : world) :
  (exists msg, upload U os E req w = (Returned (json_error msg, 400), w)) \/
  (exists e,
     request_files req = Raised e /\
     upload U os E req w =
     (Returned (json_error (str_exc e), 500),
      {| store := store w;
         trace := trace w ++ [log_exception (lit "Upload failed") e] |})) \/
  (exists f e,
     files_get (lit "file") (files req) = Some f /\
     upload_fault E = Some e /\
     upload U os E req w =
     (Returned (json_error (str_exc e), 500),
      {| store := store w;
         trace :=
           trace w ++
           [call_upload_blob (_timestamped_name U os (now_utc E) (filename f))
              (stream f) true (mimetype f);
            log_exception (lit "Upload failed") e] |})) \/
  (exists f,
     files_get (lit "file") (files req) = Some f /\
     upload_fault E = None /\
     let key := _timestamped_name U os (now_utc E) (filename f) in
     upload U os E req w =
     (Returned (json_ok_url (url (store w) ++ lit "/" ++ key), 200),
      {| store :=
           {| url := url (store w);
              blobs :=
                put_blob
                  {| name := key; content := stream f; content_type := mimetype f |}
                  (blobs (store w)) |};
         trace :=
           trace w ++
           [call_upload_blob key (stream f) true (mimetype f);
            log_info (lit "Uploaded " ++ url (store w) ++ lit "/" ++ key)] |})).
Proof.
  destruct (request_files req) as [fs | e] eqn:Hfs.
  2: { right; left. exists e. split; [reflexivity|].
       now apply upload_files_raise. }
  destruct (files_get (lit "file") fs) as [f|] eqn:Hfile.
  2: { left. eexists. now apply (upload_missing_file U os E req w fs). }
  rewrite <- (files_returned req fs Hfs) in Hfile.
  destruct (filename_is_empty f) eqn:Hname.
  { left. eexists. now apply (upload_empty_filename U os E req w f). }
  destruct (_is_image_upload U f) eqn:Himg.
  2: { left. eexists. now apply (upload_not_image U os E req w f). }
  destruct (upload_fault E) as [e|] eqn:Hfault.
  - right; right; left. exists f, e.
    split; [exact Hfile|]. split; [reflexivity|].
    now apply (upload_store_raises U os E req w f).
  - right; right; right. exists f.
    split; [exact Hfile|]. split; [reflexivity|].
    now apply (upload_stored U os E req w f).
Qed.

(** X1. Whatever the request, the clock and the behaviour of the container,
    the upload handler returns a response (no exception leaves it); the
    status is 200, 400 or 500, and the body says ok:true exactly when the
    status is 200. *)
Theorem upload_always_responds (U : unicodedata) (os : os_name) (E : env)
    (req : request) (w : world) :
  exists body status w',
    upload U os E req w = (Returned (body, status), w') /\
    (status = 200 \/ status = 400 \/ status = 500) /\
    (ok body = true <-> status = 200) /\
    (status = 400 -> w' = w) /\
    (status = 500 -> store w' = store w).
Proof.
  destruct (upload_cases U os E req w)
    as [(msg & H) | [(e & _ & H) | [(f & e & _ & _ & H) | (f & _ & _ & H)]]];
    cbv zeta in H; rewrite H; do 3 eexists; (split; [reflexivity|]).
  - split; [right; now left|]. split; [split; discriminate|].
    split; [reflexivity | discriminate].
  - split; [right; now right|]. split; [split; discriminate|].
    split; [discriminate | reflexivity].
  - split; [right; now right|]. split; [split; discriminate|].
    split; [discriminate | reflexivity].
  - split; [now left|]. split; [split; reflexivity|].
    split; discriminate.
Qed.

(** X2. A call of [upload] never removes a blob and never changes a blob
    stored under another name than the key of the request: every name
    listed before is listed after, at most one blob is added, the URL of the
    container is unchanged, and a blob whose name is not the key is read
    back as before. *)
Theorem upload_changes_only_its_key (U : unicodedata) (os : os_name) (E : env)
    (req : request) (w : world) :
  exists r w',
    upload U os E req w = (r, w') /\
    url (store w') = url (store w) /\
    (forall n, In n (map name (blobs (store w))) ->
               In n (map name (blobs (store w')))) /\
    (length (blobs (store w)) <= length (blobs (store w')) <=
     S (length (blobs (store w))))%nat /\
    (forall n,
       (forall f, files_get (lit "file") (files req) = Some f ->
                  n <> _timestamped_name U os (now_utc E) (filename f)) ->
       get_blob n (blobs (store w')) = get_blob n (blobs (store w))).
Proof.
  destruct (upload_cases U os E req w)
    as [(msg & H) | [(e & _ & H) | [(f & e & _ & _ & H) | (f & Hfile & _ & H)]]];
    cbv zeta in H; rewrite H; do 2 eexists; (split; [reflexivity|]);
    cbn [store url blobs].
  - repeat split; auto; lia.
  - repeat split; auto; lia.
  - repeat split; auto; lia.
  - split; [reflexivity|].
    split; [intros n Hn; now apply put_blob_keeps_names|].
    split; [apply put_blob_length|].
    intros n Hn. apply get_put_blob_other. cbn [name]. now apply Hn.
Qed.

(** X13. A body that declares more than [MAX_CONTENT_LENGTH] is not turned
    away before the handler: the read of [request.files] raises inside the
    [try], and the handler answers ok:false with status 500 and the string
    of the exception, whatever the parts of the body; the exception is
    logged, the container is not called and nothing is stored. *)
Theorem oversized_body_answered_500 (U : unicodedata) (os : os_name) (E : env)
    (req : request) (w : world) (n : N) :
  content_length req = Some n ->
  MAX_CONTENT_LENGTH < n ->
  upload U os E req w =
  (Returned (json_error (str_exc RequestEntityTooLarge), 500),
   {| store := store w;
      trace :=
        trace w ++ [log_exception (lit "Upload failed") RequestEntityTooLarge] |}) /\
  files req = [].
Proof.
  intros Hn Hlt.
  pose proof (request_files_too_large req n Hn Hlt) as Hraise.
  split.
  - now apply upload_files_raise.
  - unfold files. now rewrite Hraise.
Qed.

Lemma oversized_body_answered_500_witness :
  upload no_unicodedata posix Sample.healthy (Sample.oversized Sample.photo)
    Sample.w0 =
  (Returned
     (json_error
        (lit "413 Request Entity Too Large: The data value transmitted exceeds the capacity limit."),
      500),
   {| store := store Sample.w0;
      trace := [log_exception (lit "Upload failed") RequestEntityTooLarge] |}).
Proof.
  apply (oversized_body_answered_500 no_unicodedata posix Sample.healthy
           (Sample.oversized Sample.photo) Sample.w0 (20 * 1024 * 1024) eq_refl).
  reflexivity.
Defined.

(** ** The order on strings *)

Lemma str_compare_eq (a b : str) : str_compare a b = Eq -> a = b.
Proof.
  revert b; induction a as [|x a IH]; intros [|y b]; simpl; try discriminate.
  - reflexivity.
  - destruct (N.compare_spec x y) as [-> | |]; try discriminate.
    intro H. now rewrite (IH b H).
Qed.

Lemma str_compare_refl (a : str) : str_compare a a = Eq.
Proof.
  induction a as [|x a IH]; simpl; [reflexivity|].
  now rewrite N.compare_refl.
Qed.

Lemma str_leb_antisym (a b : str) :
  str_leb a b = true -> str_leb b a = true -> a = b.
Proof.
  unfold str_leb. rewrite (StrReverseOrder.str_compare_antisym a b).
  destruct (str_compare a b) eqn:H; simpl; try discriminate.
  intros _ _. now apply str_compare_eq.
Qed.

Lemma str_compare_app_length (a a' b b' : str) :
  length a = length b ->
  str_compare (a ++ a') (b ++ b') =
  then_compare (str_compare a b) (str_compare a' b').
Proof.
  revert b; induction a as [|x a IH]; intros [|y b]; simpl; try discriminate.
  - reflexivity.
  - intro H. injection H as H.
    destruct (x ?= y); [now apply IH | reflexivity | reflexivity].
Qed.

(** A list in descending order is determined by its elements. *)
Lemma descending_unique (l1 l2 : list str) :
  StronglySorted precedes l1 -> StronglySorted precedes l2 ->
  Permutation l1 l2 -> l1 = l2.
Proof.
  intro H1. revert l2.
  induction H1 as [|a l1 Hs1 IH Ha]; intros l2 H2 Hp.
  - now apply Permutation_nil in Hp.
  - destruct H2 as [|b l2 Hs2 Hb].
    + apply Permutation_sym, Permutation_nil in Hp. discriminate.
    + assert (Hab : a = b).
      { assert (Hina : In a (b :: l2))
          by (apply (Permutation_in _ Hp); now left).
        assert (Hinb : In b (a :: l1))
          by (apply (Permutation_in _ (Permutation_sym Hp)); now left).
        destruct Hina as [Hina | Hina]; [now symmetry|].
        destruct Hinb as [Hinb | Hinb]; [exact Hinb|].
        rewrite Forall_forall in Ha, Hb.
        apply str_leb_antisym; [apply (Hb a Hina) | apply (Ha b Hinb)]. }
      subst b. f_equal. apply IH; [exact Hs2|].
      now apply Permutation_cons_inv in Hp.
Qed.

(** In a descending list the greater of two elements comes first. *)
Lemma descending_before (l : list str) (a b : str) :
  StronglySorted precedes l -> In a l -> In b l -> str_compare a b = Lt ->
  exists l1 l2 l3, l = l1 ++ b :: l2 ++ a :: l3.
Proof.
  intros Hs Ha Hb Hlt.
  induction Hs as [|x l Hs IH Hx].
  - destruct Ha.
  - destruct Hb as [Hb | Hb].
    + subst x. destruct Ha as [Ha | Ha].
      * subst a. rewrite str_compare_refl in Hlt. discriminate.
      * apply in_split in Ha as (l2 & l3 & ->). now exists [], l2, l3.
    + destruct Ha as [Ha | Ha].
      * subst x. rewrite Forall_forall in Hx. specialize (Hx b Hb).
        unfold precedes, str_leb in Hx.
        rewrite (StrReverseOrder.str_compare_antisym a b), Hlt in Hx.
        discriminate.
      * destruct (IH Ha Hb) as (l1 & l2 & l3 & ->).
        now exists (x :: l1), l2, l3.
Qed.

(** ** The gallery handler on every call *)

(** X3. The gallery handler only reads: whatever the listing does, it
    returns a response with status 200 or 500 (ok:true exactly for 200),
    leaves the container as it was, and calls the container client once,
    for the listing; it never uploads. *)
Theorem gallery_only_reads (E : env) (w : world) :
  exists body status w' events,
    gallery E w = (Returned (body, status), w') /\
    (status = 200 \/ status = 500) /\
    (ok body = true <-> status = 200) /\
    store w' = store w /\
    trace w' = trace w ++ events /\
    filter is_store_call events = [call_list_blobs].
Proof.
  destruct (list_fault E) as [[n e]|] eqn:Hfault.
  - rewrite (gallery_listing_raises E w n e Hfault).
    do 4 eexists. split; [reflexivity|].
    split; [now right|]. split; [split; discriminate|].
    split; [reflexivity|]. split; reflexivity.
  - rewrite (gallery_listed E w Hfault).
    do 4 eexists. split; [reflexivity|].
    split; [now left|]. split; [split; reflexivity|].
    split; [reflexivity|]. split; reflexivity.
Qed.

(** X4. The gallery does not depend on the order in which the container
    lists its blobs: two containers with the same URL whose listings are
    permutations of each other give the same response. *)
Theorem gallery_ignores_listing_order (E : env) (w1 w2 : world) :
  list_fault E = None ->
  url (store w1) = url (store w2) ->
  Permutation (blobs (store w1)) (blobs (store w2)) ->
  fst (gallery E w1) = fst (gallery E w2).
Proof.
  intros Hfault Hurl Hperm.
  rewrite (gallery_listed E w1 Hfault), (gallery_listed E w2 Hfault).
  cbn [fst]. do 3 f_equal.
  apply descending_unique; try apply sort_reverse_sorted.
  eapply Permutation_trans; [apply Permutation_sym, sort_reverse_perm|].
  eapply Permutation_trans; [|apply sort_reverse_perm].
  rewrite Hurl. now apply Permutation_map.
Qed.

Lemma gallery_ignores_listing_order_witness :
  fst (gallery Sample.healthy Sample.w0) =
  fst (gallery Sample.healthy
         {| store :=
              {| url := Sample.base_url; blobs := rev (blobs (store Sample.w0)) |};
            trace := [] |}).
Proof.
  apply gallery_ignores_listing_order.
  - reflexivity.
  - reflexivity.
  - apply Permutation_rev.
Defined.

(** ** Timestamps sort chronologically *)

Lemma digits_value_bound (s : str) :
  forallb is_digit s = true -> digits_value s < 10 ^ N.of_nat (length s).
Proof.
  induction s as [|c s IH]; simpl digits_value; simpl forallb; intro H.
  - simpl. lia.
  - apply andb_true_iff in H as [Hc Hs]. specialize (IH Hs).
    unfold is_digit, char_in in Hc. apply andb_true_iff in Hc as [Hlo Hhi].
    apply N.leb_le in Hlo, Hhi.
    replace (N.of_nat (length (c :: s))) with (N.succ (N.of_nat (length s)))
      by (simpl length; lia).
    rewrite N.pow_succ_r'.
    assert (Hm : (c - 48) * 10 ^ N.of_nat (length s) <= 9 * 10 ^ N.of_nat (length s))
      by (apply N.mul_le_mono_r; lia).
    lia.
Qed.

Lemma digits_compare (a b : str) :
  length a = length b ->
  forallb is_digit a = true -> forallb is_digit b = true ->
  str_compare a b = (digits_value a ?= digits_value b).
Proof.
  revert b; induction a as [|x a IH]; intros [|y b]; try discriminate.
  - reflexivity.
  - intros Hlen Ha Hb. injection Hlen as Hlen.
    simpl in Ha, Hb.
    apply andb_true_iff in Ha as [Hx Ha]. apply andb_true_iff in Hb as [Hy Hb].
    pose proof (digits_value_bound a Ha) as Ba.
    pose proof (digits_value_bound b Hb) as Bb.
    unfold is_digit, char_in in Hx, Hy.
    apply andb_true_iff in Hx as [Hx1 Hx2]. apply andb_true_iff in Hy as [Hy1 Hy2].
    apply N.leb_le in Hx1, Hx2, Hy1, Hy2.
    simpl str_compare. simpl digits_value. rewrite <- Hlen in *.
    set (P := 10 ^ N.of_nat (length a)) in *.
    destruct (N.compare_spec x y) as [Hxy | Hxy | Hxy].
    + subst y. rewrite (IH b Hlen Ha Hb).
      destruct (N.compare_spec (digits_value a) (digits_value b));
        symmetry;
        [apply N.compare_eq_iff | apply N.compare_lt_iff | apply N.compare_gt_iff];
        lia.
    + symmetry. apply N.compare_lt_iff.
      assert (Hm : (x - 48 + 1) * P <= (y - 48) * P)
        by (apply N.mul_le_mono_r; lia).
      rewrite N.mul_add_distr_r in Hm. lia.
    + symmetry. apply N.compare_gt_iff.
      assert (Hm : (y - 48 + 1) * P <= (x - 48) * P)
        by (apply N.mul_le_mono_r; lia).
      rewrite N.mul_add_distr_r in Hm. lia.
Qed.

Lemma field_compare (w : nat) (bound n m : N) :
  all_below (numeral_ok w) bound = true ->
  n < bound -> m < bound ->
  length (zfill w (decimal n)) = length (zfill w (decimal m)) /\
  str_compare (zfill w (decimal n)) (zfill w (decimal m)) = (n ?= m).
Proof.
  intros Hall Hn Hm.
  destruct (numeral_below w bound n Hall Hn) as [Sn Vn].
  destruct (numeral_below w bound m Hall Hm) as [Sm Vm].
  unfold digits_of_width in Sn, Sm.
  apply andb_true_iff in Sn as [Ln Dn]. apply andb_true_iff in Sm as [Lm Dm].
  apply PeanoNat.Nat.eqb_eq in Ln, Lm.
  split; [congruence|].
  rewrite digits_compare by congruence.
  now rewrite Vn, Vm.
Qed.

Lemma two_digits_compare (n m : N) :
  n < 100 -> m < 100 ->
  length (zfill 2 (decimal n)) = length (zfill 2 (decimal m)) /\
  str_compare (zfill 2 (decimal n)) (zfill 2 (decimal m)) = (n ?= m).
Proof. exact (field_compare 2 100 n m two_digit_numerals). Qed.

Lemma four_digits_compare (n m : N) :
  n < 10000 -> m < 10000 ->
  length (zfill 4 (decimal n)) = length (zfill 4 (decimal m)) /\
  str_compare (zfill 4 (decimal n)) (zfill 4 (decimal m)) = (n ?= m).
Proof. exact (field_compare 4 10000 n m four_digit_numerals). Qed.

Lemma strftime_length (d : datetime) :
  valid_datetime d = true -> length (strftime d) = 15%nat.
Proof.
  intro H. apply strftime_is_timestamp in H. unfold is_timestamp in H.
  repeat (apply andb_true_iff in H as [H _]). now apply PeanoNat.Nat.eqb_eq.
Qed.

Lemma strftime_compare (a b : datetime) :
  valid_datetime a = true -> valid_datetime b = true ->
  str_compare (strftime a) (strftime b) = compare_seconds a b.
Proof.
  intros Ha Hb.
  apply valid_datetime_bounds in Ha, Hb.
  destruct Ha as (Ay & Am & Ad & Ah & Ai & As).
  destruct Hb as (By & Bm & Bd & Bh & Bi & Bs).
  destruct (four_digits_compare _ _ Ay By) as [Ly Cy].
  destruct (two_digits_compare _ _ Am Bm) as [Lm Cm].
  destruct (two_digits_compare _ _ Ad Bd) as [Ld Cd].
  destruct (two_digits_compare _ _ Ah Bh) as [Lh Ch].
  destruct (two_digits_compare _ _ Ai Bi) as [Li Ci].
  destruct (two_digits_compare _ _ As Bs) as [_ Cs].
  unfold strftime, compare_seconds.
  rewrite (str_compare_app_length _ _ _ _ Ly), Cy.
  rewrite (str_compare_app_length _ _ _ _ Lm), Cm.
  rewrite (str_compare_app_length _ _ _ _ Ld), Cd.
  rewrite (str_compare_app_length (lit "T") _ (lit "T") _ eq_refl).
  rewrite (str_compare_app_length _ _ _ _ Lh), Ch.
  rewrite (str_compare_app_length _ _ _ _ Li), Ci, Cs.
  reflexivity.
Qed.

(** Keys compare by instant first, by sanitized filename second. *)
Lemma timestamped_name_compare (U : unicodedata) (os : os_name)
    (a b : datetime) (fa fb : option str) :
  valid_datetime a = true -> valid_datetime b = true ->
  str_compare (_timestamped_name U os a fa) (_timestamped_name U os b fb) =
  then_compare (compare_seconds a b)
    (str_compare (secure_filename U os (or_str fa (lit "upload")))
       (secure_filename U os (or_str fb (lit "upload")))).
Proof.
  intros Ha Hb. unfold _timestamped_name.
  rewrite str_compare_app_length
    by (now rewrite !strftime_length).
  rewrite (strftime_compare a b Ha Hb).
  now rewrite (str_compare_app_length (lit "-") _ (lit "-") _ eq_refl).
Qed.

Lemma compare_seconds_eq (a b : datetime) :
  compare_seconds a b = Eq -> same_second a b.
Proof.
  unfold compare_seconds, same_second, then_compare.
  destruct (N.compare_spec (year a) (year b)); try discriminate.
  destruct (N.compare_spec (month a) (month b)); try discriminate.
  destruct (N.compare_spec (day a) (day b)); try discriminate.
  destruct (N.compare_spec (hour a) (hour b)); try discriminate.
  destruct (N.compare_spec (minute a) (minute b)); try discriminate.
  destruct (N.compare_spec (second a) (second b)); try discriminate.
  auto 10.
Qed.

(** X6. Storage keys repeat only within one second: when the keys made at
    two instants for two filenames are equal, the instants agree up to the
    second and the two filenames have the same sanitized form. *)
Theorem equal_keys_same_second (U : unicodedata) (os : os_name)
    (a b : datetime) (fa fb : option str) :
  valid_datetime a = true -> valid_datetime b = true ->
  _timestamped_name U os a fa = _timestamped_name U os b fb ->
  same_second a b /\
  secure_filename U os (or_str fa (lit "upload")) =
  secure_filename U os (or_str fb (lit "upload")).
Proof.
  intros Ha Hb Heq.
  pose proof (timestamped_name_compare U os a b fa fb Ha Hb) as H.
  rewrite Heq, str_compare_refl in H.
  destruct (compare_seconds a b) eqn:Hc; try discriminate.
  split; [now apply compare_seconds_eq|].
  apply str_compare_eq. now symmetry.
Qed.

Lemma equal_keys_same_second_witness :
  same_second Sample.now Sample.later /\
  secure_filename no_unicodedata posix (or_str (Some (lit "my photo.PNG")) (lit "upload")) =
  secure_filename no_unicodedata posix (or_str (Some (lit "/my/photo.PNG")) (lit "upload")).
Proof.
  apply (equal_keys_same_second no_unicodedata posix Sample.now Sample.later
           (Some (lit "my photo.PNG")) (Some (lit "/my/photo.PNG")));
    reflexivity.
Defined.

(** X7. Keys sort chronologically: the key made at an earlier second is
    smaller, as a string, than the key made at a later second, whatever the
    two filenames; so is its URL under one container. *)
Theorem earlier_key_is_smaller (U : unicodedata) (os : os_name)
    (a b : datetime) (fa fb : option str) (base : str) :
  valid_datetime a = true -> valid_datetime b = true ->
  compare_seconds a b = Lt ->
  str_compare (_timestamped_name U os a fa) (_timestamped_name U os b fb) = Lt /\
  str_compare (base ++ lit "/" ++ _timestamped_name U os a fa)
    (base ++ lit "/" ++ _timestamped_name U os b fb) = Lt.
Proof.
  intros Ha Hb Hlt.
  assert (H : str_compare (_timestamped_name U os a fa)
                (_timestamped_name U os b fb) = Lt).
  { rewrite (timestamped_name_compare U os a b fa fb Ha Hb), Hlt. reflexivity. }
  split; [exact H|].
  rewrite str_compare_app.
  now rewrite (str_compare_app_length (lit "/") _ (lit "/") _ eq_refl).
Qed.

Lemma earlier_key_is_smaller_witness :
  str_compare (lit "20240101T000000-z.png") (lit "20240601T000509-a.png") = Lt /\
  str_compare (Sample.base_url ++ lit "/" ++ lit "20240101T000000-z.png")
    (Sample.base_url ++ lit "/" ++ lit "20240601T000509-a.png") = Lt.
Proof.
  apply (earlier_key_is_smaller no_unicodedata posix
           {| year := 2024; month := 1; day := 1; hour := 0; minute := 0;
              second := 0; microsecond := 0 |}
           Sample.now (Some (lit "z.png")) (Some (lit "a.png")) Sample.base_url);
    reflexivity.
Defined.

(** X8. The gallery is newest first: when the container lists two blobs
    whose names are the keys made at two different seconds, the URL of the
    later one stands before the URL of the earlier one in the response. *)
Theorem gallery_newest_first (U : unicodedata) (os : os_name) (E : env)
    (w : world) (a b : datetime) (fa fb : option str) :
  valid_datetime a = true -> valid_datetime b = true ->
  compare_seconds a b = Lt ->
  list_fault E = None ->
  In (_timestamped_name U os a fa) (map name (blobs (store w))) ->
  In (_timestamped_name U os b fb) (map name (blobs (store w))) ->
  exists urls w' l1 l2 l3,
    gallery E w = (Returned (json_ok_gallery urls, 200), w') /\
    urls =
    l1 ++ (url (store w) ++ lit "/" ++ _timestamped_name U os b fb) ::
    l2 ++ (url (store w) ++ lit "/" ++ _timestamped_name U os a fa) :: l3.
Proof.
  intros Ha Hb Hlt Hlist Hina Hinb.
  rewrite (gallery_listed E w Hlist).
  set (g := fun x => url (store w) ++ lit "/" ++ name x).
  assert (Hin : forall n, In n (map name (blobs (store w))) ->
                          In (url (store w) ++ lit "/" ++ n)
                            (sort_reverse (map g (blobs (store w))))).
  { intros n Hn. apply (Permutation_in _ (sort_reverse_perm _)).
    apply in_map_iff in Hn as (x & <- & Hx).
    apply in_map_iff. now exists x. }
  destruct (descending_before _ _ _ (sort_reverse_sorted _)
              (Hin _ Hina) (Hin _ Hinb)) as (l1 & l2 & l3 & Hsplit).
  { rewrite str_compare_app.
    rewrite (str_compare_app_length (lit "/") _ (lit "/") _ eq_refl).
    cbn [str_compare lit map list_ascii_of_string then_compare].
    rewrite N.compare_refl.
    rewrite (timestamped_name_compare U os a b fa fb Ha Hb), Hlt. reflexivity. }
  exists (sort_reverse (map g (blobs (store w)))).
  eexists. exists l1, l2, l3. split; [reflexivity | exact Hsplit].
Qed.

Lemma gallery_newest_first_witness :
  exists urls w' l1 l2 l3,
    gallery Sample.healthy Sample.w0 = (Returned (json_ok_gallery urls, 200), w') /\
    urls =
    l1 ++ (Sample.base_url ++ lit "/20240601T000000-b.png") ::
    l2 ++ (Sample.base_url ++ lit "/20240101T000000-a.png") :: l3.
Proof.
  apply (gallery_newest_first no_unicodedata posix Sample.healthy Sample.w0
           {| year := 2024; month := 1; day := 1; hour := 0; minute := 0;
              second := 0; microsecond := 0 |}
           {| year := 2024; month := 6; day := 1; hour := 0; minute := 0;
              second := 0; microsecond := 0 |}
           (Some (lit "a.png")) (Some (lit "b.png"))).
  - reflexivity.
  - reflexivity.
  - reflexivity.
  - reflexivity.
  - left. reflexivity.
  - right. left. reflexivity.
Defined.

(** ** The check of the content type *)

Lemma lower_app_ascii (U : unicodedata) (p r : str) :
  forallb is_ascii p = true -> lower U (p ++ r) = map ascii_lower p ++ lower U r.
Proof.
  intro H. unfold lower at 1. rewrite flat_map_app.
  fold (lower U p). fold (lower U r). now rewrite lower_ascii.
Qed.

Lemma startswith_firstn (s q : str) :
  startswith s q = true <-> firstn (length q) s = q.
Proof.
  revert s; induction q as [|p q IH]; intros [|c s]; simpl; split;
    try reflexivity; try discriminate.
  - intro H. apply andb_true_iff in H as [Hc Hs].
    apply N.eqb_eq in Hc. apply IH in Hs. congruence.
  - intro H. injection H as -> Hs. rewrite N.eqb_refl. now apply IH.
Qed.

Lemma lower_firstn_ascii (U : unicodedata) (n : nat) (s : str) :
  forallb is_ascii (firstn n s) = true ->
  firstn n (lower U s) = map ascii_lower (firstn n s).
Proof.
  intro H.
  rewrite <- (firstn_skipn n s) at 1.
  rewrite (lower_app_ascii U _ _ H), firstn_app, length_map.
  destruct (Compare_dec.le_lt_dec n (length s)) as [Hle | Hlt].
  - rewrite (firstn_length_le s Hle), PeanoNat.Nat.sub_diag. simpl.
    rewrite app_nil_r. apply firstn_all2. rewrite length_map.
    now rewrite (firstn_length_le s Hle).
  - rewrite (skipn_all2 s) by lia. simpl lower. rewrite firstn_nil, app_nil_r.
    apply firstn_all2. rewrite length_map, length_firstn. lia.
Qed.

(** X9. The check of the content type reads the first six code points only:
    when they are ASCII, the part is taken for an image exactly when they
    spell [image/] in any mix of upper and lower case, whatever follows
    (a subtype, parameters, or nothing) and whatever the Unicode tables. *)
Theorem is_image_upload_prefix (U : unicodedata) (f : FileStorage) (mt : str) :
  mimetype f = Some mt ->
  forallb is_ascii (firstn 6 mt) = true ->
  (_is_image_upload U f = true <-> map ascii_lower (firstn 6 mt) = lit "image/").
Proof.
  intros Hmt Hascii. unfold _is_image_upload. rewrite Hmt.
  assert (Hor : or_str (Some mt) [] = mt) by (destruct mt; reflexivity).
  rewrite Hor, startswith_firstn.
  change (length (lit "image/")) with 6%nat.
  now rewrite (lower_firstn_ascii U 6 mt Hascii).
Qed.

Lemma is_image_upload_prefix_witness :
  _is_image_upload no_unicodedata
    (Sample.part (Some (lit "a.svg")) (Some (lit "IMAGE/Svg+XML; charset=utf-8")) []) =
  true.
Proof.
  apply (proj2 (is_image_upload_prefix no_unicodedata
                  (Sample.part (Some (lit "a.svg"))
                     (Some (lit "IMAGE/Svg+XML; charset=utf-8")) [])
                  (lit "IMAGE/Svg+XML; charset=utf-8") eq_refl eq_refl)).
  reflexivity.
Defined.

(** ** The start-up code *)

(** X10. The start-up code raises the [RuntimeError] about the missing
    configuration whenever neither [AZURE_STORAGE_CONNECTION_STRING] nor
    [STORAGE_ACCOUNT_URL] is set to a non-empty string. When it returns a
    container client, the client was built from the connection string if
    that is non-empty, whatever the account URL, and from the account URL
    otherwise, by a constructor that did not raise, for the container named
    by [IMAGES_CONTAINER], or [lanternfly-images] when that variable is not
    set. It returns such a client as soon as the chosen constructor accepts
    its argument and the container name is not empty; it returns none when
    the constructor raises, and none when [IMAGES_CONTAINER] is set to the
    empty string. *)
Theorem startup_configuration (sdk : azure_sdk) (e : environ) :
  let conn := getenv e (lit "AZURE_STORAGE_CONNECTION_STRING") in
  let acct := getenv e (lit "STORAGE_ACCOUNT_URL") in
  let container :=
    getenv_default e (lit "IMAGES_CONTAINER") (lit "lanternfly-images") in
  let chosen c :=
    (exists s, conn = Some s /\ s <> [] /\ c = from_connection_string s) \/
    (truthy conn = false /\
     exists u, acct = Some u /\ u <> [] /\ c = with_account_url u) in
  (truthy conn = false /\ truthy acct = false ->
   startup sdk e =
   Raised
     (RuntimeError
        (lit "Missing storage configuration. Set AZURE_STORAGE_CONNECTION_STRING or STORAGE_ACCOUNT_URL."))) /\
  (forall client, startup sdk e = Returned client ->
     chosen (service client) /\
     constructor_raises sdk (service client) = None /\
     container_name client = container /\ container <> []) /\
  (forall c, chosen c -> constructor_raises sdk c = None -> container <> [] ->
     startup sdk e = Returned {| service := c; container_name := container |}) /\
  (forall c exc, chosen c -> constructor_raises sdk c = Some exc ->
     startup sdk e = Raised exc) /\
  (forall c, chosen c -> constructor_raises sdk c = None -> container = [] ->
     startup sdk e = Raised (ValueError (lit "Please specify a container name."))) /\
  (forall v, getenv e (lit "IMAGES_CONTAINER") = Some v -> container = v) /\
  (getenv e (lit "IMAGES_CONTAINER") = None -> container = lit "lanternfly-images").
Proof.
  cbv zeta. unfold startup.
  set (container := getenv_default e (lit "IMAGES_CONTAINER") (lit "lanternfly-images")).
  assert (Hget : forall c, container <> [] ->
            get_container_client c container =
            Returned {| service := c; container_name := container |}).
  { intros c Hc. unfold get_container_client.
    destruct container; [contradiction | reflexivity]. }
  assert (Hchoice :
    forall c,
      (exists s, getenv e (lit "AZURE_STORAGE_CONNECTION_STRING") = Some s /\
                 s <> [] /\ c = from_connection_string s) \/
      (truthy (getenv e (lit "AZURE_STORAGE_CONNECTION_STRING")) = false /\
       exists u, getenv e (lit "STORAGE_ACCOUNT_URL") = Some u /\
                 u <> [] /\ c = with_account_url u) ->
      match getenv e (lit "AZURE_STORAGE_CONNECTION_STRING") with
      | Some (x :: conn_str) => construct sdk (from_connection_string (x :: conn_str))
      | _ =>
          match getenv e (lit "STORAGE_ACCOUNT_URL") with
          | Some (x :: account_url) =>
              construct sdk (with_account_url (x :: account_url))
          | _ =>
              Raised
                (RuntimeError
                   (lit "Missing storage configuration. Set AZURE_STORAGE_CONNECTION_STRING or STORAGE_ACCOUNT_URL."))
          end
      end = construct sdk c).
  { intros c [(s & -> & Hs & ->) | (Hconn & u & -> & Hu & ->)].
    - destruct s; [contradiction | reflexivity].
    - destruct (getenv e (lit "AZURE_STORAGE_CONNECTION_STRING")) as [[|x s]|];
        try discriminate; (destruct u; [contradiction | reflexivity]). }
  split; [|split; [|split; [|split; [|split; [|split]]]]].
  - intros [Hconn Hacct].
    destruct (getenv e (lit "AZURE_STORAGE_CONNECTION_STRING")) as [[|x s]|];
      try discriminate;
      destruct (getenv e (lit "STORAGE_ACCOUNT_URL")) as [[|y u]|];
      try discriminate; reflexivity.
  - intros client Hret.
    destruct (getenv e (lit "AZURE_STORAGE_CONNECTION_STRING")) as [[|x s]|] eqn:Hconn;
      [ destruct (getenv e (lit "STORAGE_ACCOUNT_URL")) as [[|y u]|] eqn:Hacct;
        try discriminate
      | | destruct (getenv e (lit "STORAGE_ACCOUNT_URL")) as [[|y u]|] eqn:Hacct;
          try discriminate ];
      unfold construct in Hret;
      match type of Hret with
      | context [constructor_raises sdk ?c] =>
          destruct (constructor_raises sdk c) eqn:Hsdk; try discriminate
      end;
      unfold get_container_client in Hret;
      destruct container eqn:Hcont; try discriminate;
      injection Hret as <-; cbn [service container_name];
      (split; [|split; [exact Hsdk | split; [reflexivity | discriminate]]]).
    + right. split; [reflexivity|]. eexists. split; [reflexivity|].
      split; [discriminate | reflexivity].
    + left. eexists. split; [reflexivity|]. split; [discriminate | reflexivity].
    + right. split; [reflexivity|]. eexists. split; [reflexivity|].
      split; [discriminate | reflexivity].
  - intros c Hc Hsdk Hcont. rewrite (Hchoice c Hc).
    unfold construct. rewrite Hsdk. now apply Hget.
  - intros c exc Hc Hsdk. rewrite (Hchoice c Hc).
    unfold construct. now rewrite Hsdk.
  - intros c Hc Hsdk Hcont. rewrite (Hchoice c Hc).
    unfold construct. rewrite Hsdk, Hcont. reflexivity.
  - intros v Hv. unfold container, getenv_default. now rewrite Hv.
  - intro Hv. unfold container, getenv_default. now rewrite Hv.
Qed.

(** The sample environments: credentials win, an empty connection string
    falls through to the account URL, nothing usable fails, and an empty
    container name fails in [get_container_client]. *)
Example startup_samples :
  startup SampleEnviron.accepting SampleEnviron.credentialed =
  Returned {| service := from_connection_string (lit "UseDevelopmentStorage=true");
              container_name := lit "lanternfly-images" |} /\
  startup SampleEnviron.accepting SampleEnviron.anonymous =
  Returned {| service := with_account_url (lit "https://acct.blob.core.windows.net");
              container_name := lit "photos" |} /\
  startup SampleEnviron.accepting SampleEnviron.unconfigured =
  Raised
    (RuntimeError
       (lit "Missing storage configuration. Set AZURE_STORAGE_CONNECTION_STRING or STORAGE_ACCOUNT_URL.")) /\
  startup SampleEnviron.accepting SampleEnviron.unnamed_container =
  Raised (ValueError (lit "Please specify a container name.")).
Proof. repeat split. Qed.

(** ** The shape of a sanitized filename *)

Lemma lstrip_head (chars s t : str) (c : char) :
  lstrip chars s = c :: t -> mem_char c chars = false.
Proof.
  induction s as [|x s IH]; simpl; [discriminate|].
  destruct (mem_char x chars) eqn:Hx; [exact IH|].
  intro H. injection H as <- _. exact Hx.
Qed.

Lemma lstrip_idem (chars s : str) :
  lstrip chars (lstrip chars s) = lstrip chars s.
Proof.
  destruct (lstrip chars s) as [|c t] eqn:H; [reflexivity|].
  simpl. now rewrite (lstrip_head chars s t c H).
Qed.

Lemma lstrip_app_last (chars a : str) (c : char) :
  mem_char c chars = false -> lstrip chars (a ++ [c]) = lstrip chars a ++ [c].
Proof.
  intro Hc. induction a as [|x a IH]; simpl.
  - now rewrite Hc.
  - destruct (mem_char x chars); [exact IH | reflexivity].
Qed.

Lemma rstrip_cons (chars u : str) (c : char) :
  mem_char c chars = false -> rstrip chars (c :: u) = c :: rstrip chars u.
Proof.
  intro Hc. unfold rstrip. simpl rev.
  rewrite (lstrip_app_last chars (rev u) c Hc), rev_app_distr. reflexivity.
Qed.

Lemma strip_head (chars s t : str) (c : char) :
  strip chars s = c :: t -> mem_char c chars = false.
Proof.
  unfold strip. destruct (lstrip chars s) as [|x u] eqn:Hl.
  - discriminate.
  - pose proof (lstrip_head chars s u x Hl) as Hx.
    rewrite (rstrip_cons chars u x Hx). intro H. injection H as <- _. exact Hx.
Qed.

Lemma strip_last (chars s t : str) (c : char) :
  rev (strip chars s) = c :: t -> mem_char c chars = false.
Proof.
  unfold strip, rstrip. rewrite rev_involutive. apply lstrip_head.
Qed.

Lemma strip_fixed (chars s : str) :
  lstrip chars s = s -> lstrip chars (rev s) = rev s -> strip chars s = s.
Proof.
  intros H1 H2. unfold strip, rstrip. now rewrite H1, H2, rev_involutive.
Qed.

Lemma strip_idem (chars s : str) :
  strip chars (strip chars s) = strip chars s.
Proof.
  apply strip_fixed.
  - destruct (strip chars s) as [|c t] eqn:H; [reflexivity|].
    simpl. now rewrite (strip_head chars s t c H).
  - unfold strip, rstrip. rewrite rev_involutive. apply lstrip_idem.
Qed.

Lemma strip_cons_member (chars s : str) (c : char) :
  mem_char c chars = true -> strip chars (c :: s) = strip chars s.
Proof. intro Hc. unfold strip. simpl. now rewrite Hc. Qed.

Lemma filter_all (f : char -> bool) (s : str) :
  Forall (fun c => f c = true) s -> filter f s = s.
Proof.
  induction 1 as [|c s Hc Hs IH]; simpl; [reflexivity|].
  now rewrite Hc, IH.
Qed.

Lemma split_ws_from_no_space (cur s : str) :
  Forall (fun c => isspace c = false) s ->
  split_ws_from cur s =
  match rev cur ++ s with
  | [] => []
  | l => [l]
  end.
Proof.
  intro H. revert cur. induction H as [|c s Hc Hs IH]; intro cur; simpl.
  - rewrite app_nil_r. destruct cur as [|x cur]; [reflexivity|].
    simpl. destruct (rev cur ++ [x]) eqn:E; [|reflexivity].
    now apply app_eq_nil in E as [_ E].
  - rewrite Hc, IH. simpl. now rewrite <- app_assoc.
Qed.

Lemma join_split_ws_no_space (s : str) :
  Forall (fun c => isspace c = false) s ->
  join (lit "_") (split_ws s) = s.
Proof.
  intro H. unfold split_ws. rewrite (split_ws_from_no_space [] s H).
  simpl. destruct s; reflexivity.
Qed.

Lemma replace_separators_none (os : os_name) (s : str) :
  Forall (fun c => c <> 47 /\ c <> 92) s -> replace_separators os s = s.
Proof.
  intro H.
  assert (Hmap : forall old, old = 47 \/ old = 92 -> replace_char old 32 s = s).
  { intros old Hold. unfold replace_char.
    induction H as [|c s [H47 H92] Hs IH]; simpl; [reflexivity|].
    rewrite IH. destruct (N.eqb_spec c old) as [-> | _]; [|reflexivity].
    destruct Hold; contradiction. }
  unfold replace_separators. destruct os; simpl.
  - apply Hmap. now left.
  - rewrite (Hmap 92) by now right. apply Hmap. now left.
Qed.

Section Sanitized.

Variable U : unicodedata.
Variable os : os_name.

(** On a string of filename characters only the last two steps of
    [secure_filename] act: the strip and, on Windows, the device name. *)
Lemma secure_filename_on_safe (s : str) :
  Forall (fun c => filename_ascii_char c = true) s ->
  secure_filename U os s =
  let t := strip (lit "._") s in
  match os with
  | nt =>
      match t with
      | [] => t
      | _ :: _ =>
          if existsb (str_eqb (upper U (split_first 46 t))) windows_device_files
          then lit "_" ++ t
          else t
      end
  | posix => t
  end.
Proof.
  intro H. unfold secure_filename.
  assert (Hascii : forallb is_ascii s = true).
  { apply forallb_forall. rewrite Forall_forall in H.
    intros c Hc. now apply filename_ascii_char_is_ascii, H. }
  rewrite (normalize_NFKD_ascii U s Hascii).
  unfold encode_ascii_ignore.
  rewrite (filter_all is_ascii s)
    by (apply Forall_forall; intros c Hc; rewrite forallb_forall in Hascii; auto).
  rewrite (replace_separators_none os s).
  2: { eapply Forall_impl; [|exact H]. intros c Hc.
       destruct (filename_ascii_char_facts c Hc) as (H47 & H92 & _). now split. }
  rewrite join_split_ws_no_space.
  2: { eapply Forall_impl; [|exact H]. intros c Hc.
       now destruct (filename_ascii_char_facts c Hc) as (_ & _ & Hsp). }
  unfold filename_ascii_strip. rewrite (filter_all _ s H). reflexivity.
Qed.

Lemma secure_filename_idem (s : str) :
  secure_filename U os (secure_filename U os s) = secure_filename U os s.
Proof.
  pose (t := strip (lit "._")
               (filename_ascii_strip
                  (join (lit "_")
                     (split_ws
                        (replace_separators os
                           (encode_ascii_ignore (normalize_NFKD U s))))))).
  assert (Hsf : secure_filename U os s =
                match os with
                | nt =>
                    match t with
                    | [] => t
                    | _ :: _ =>
                        if existsb (str_eqb (upper U (split_first 46 t)))
                             windows_device_files
                        then lit "_" ++ t
                        else t
                    end
                | posix => t
                end) by reflexivity.
  assert (Ht : strip (lit "._") t = t) by apply strip_idem.
  rewrite (secure_filename_on_safe _ (secure_filename_chars U os s)). cbv zeta.
  rewrite Hsf. clearbody t. clear Hsf.
  destruct os.
  - exact Ht.
  - destruct t as [|c t']; [reflexivity|].
    destruct (existsb (str_eqb (upper U (split_first 46 (c :: t'))))
                windows_device_files) eqn:Hdev.
    + assert (Hs : strip (lit "._") (lit "_" ++ c :: t') = c :: t')
        by (rewrite <- Ht at 2; apply strip_cons_member; reflexivity).
      rewrite Hs. now rewrite Hdev.
    + rewrite Ht. now rewrite Hdev.
Qed.

End Sanitized.

(** X11. Sanitizing is idempotent on the storage key: a filename that is
    already the sanitized form of some filename, and is not empty, gets the
    same key as that filename. *)
Theorem sanitized_name_same_key (U : unicodedata) (os : os_name)
    (now : datetime) (s : str) :
  secure_filename U os s <> [] ->
  _timestamped_name U os now (Some (secure_filename U os s)) =
  _timestamped_name U os now (Some s).
Proof.
  intro Hne. unfold _timestamped_name.
  assert (Hs : s <> []).
  { intros ->. apply Hne. destruct os; reflexivity. }
  rewrite (or_str_nonempty _ _ Hne), (or_str_nonempty _ _ Hs).
  now rewrite secure_filename_idem.
Qed.

Lemma sanitized_name_same_key_witness :
  _timestamped_name no_unicodedata nt Sample.now (Some (lit "_con.png")) =
  _timestamped_name no_unicodedata nt Sample.now (Some (lit "con.png")) /\
  secure_filename no_unicodedata nt (lit "con.png") = lit "_con.png".
Proof.
  split; [|reflexivity].
  apply (sanitized_name_same_key no_unicodedata nt Sample.now (lit "con.png")).
  discriminate.
Defined.

(** X12. The sanitized filename component of a key never begins with a dot
    and never ends with a dot or an underscore (so it is neither [.] nor
    [..], and no hidden file name); on POSIX it does not begin with an
    underscore either. *)
Theorem sanitized_filename_ends (U : unicodedata) (os : os_name)
    (original_filename : option str) :
  let safe := secure_filename U os (or_str original_filename (lit "upload")) in
  (forall c t, safe = c :: t -> c <> 46 /\ (os = posix -> c <> 95)) /\
  (forall c t, rev safe = c :: t -> c <> 46 /\ c <> 95).
Proof.
  cbv zeta. unfold secure_filename.
  set (t0 := strip (lit "._") (filename_ascii_strip _)).
  assert (Hmem : forall c, mem_char c (lit "._") = false -> c <> 46 /\ c <> 95).
  { intros c Hc. unfold mem_char in Hc. simpl in Hc.
    apply orb_false_iff in Hc as [H46 Hc]. apply orb_false_iff in Hc as [H95 _].
    apply N.eqb_neq in H46, H95. now split. }
  assert (Hhead : forall c t, t0 = c :: t -> c <> 46 /\ c <> 95).
  { intros c t H. apply Hmem. exact (strip_head _ _ _ _ H). }
  assert (Hlast : forall c t, rev t0 = c :: t -> c <> 46 /\ c <> 95).
  { intros c t H. apply Hmem. exact (strip_last _ _ _ _ H). }
  destruct os.
  - split.
    + intros c t H. destruct (Hhead c t H). now split.
    + exact Hlast.
  - destruct t0 as [|x t'] eqn:Et.
    + split; intros c t H; discriminate.
    + destruct (existsb _ _).
      * split.
        -- intros c t H. change (lit "_" ++ x :: t') with (95 :: x :: t') in H.
           assert (Hc : c = 95) by congruence. subst c.
           split; [discriminate|]. intro Hos. discriminate.
        -- intros c t H.
           assert (Hrev : rev (lit "_" ++ x :: t') = rev (x :: t') ++ [95])
             by reflexivity.
           rewrite Hrev in H. clear Hrev.
           destruct (rev (x :: t')) as [|y r] eqn:Er.
           { apply (f_equal (@rev char)) in Er. rewrite rev_involutive in Er.
             discriminate. }
           assert (Hc : c = y) by (simpl in H; congruence). subst c.
           exact (Hlast y r eq_refl).
      * split.
        -- intros c t H. destruct (Hhead c t H). split; [assumption|].
           intro Hos. discriminate.
        -- exact Hlast.
Qed.
